(** * UPB message codec (upb_lib/message.py): shallow embedding and properties

    The development follows the layout of [message.py]:
    - [Py]: the fragment of the Python runtime the codec relies on
      (exceptions, [bytearray] item and slice stores, [int.to_bytes],
      [int.from_bytes], [bytes.hex], [bytearray.fromhex], [str.upper]);
    - [Message], [Addr]: the records the codec reads and writes;
    - the decoder ([MessageDecode]) with its handler registry;
    - the encoder ([MessageEncode]), the checksum and the tx-count bump;
    - the notions the statements use (bit fields, byte sums), and then
      the facts, grouped by the function they are about.

    Python integers are [Z]; a [bytearray] is a list of [byte], whose
    elements are in 0..255 by construction, so that every store of an
    integer goes through the range check that the interpreter performs. *)

From Stdlib Require Import ZArith Lia Bool.
From Stdlib.Strings Require Import String Ascii Byte.
From Stdlib.Numbers Require Import DecimalString DecimalZ.
From stdpp Require Import base list gmap.

Local Open Scope Z_scope.

(* ===================================================================== *)
(** ** The Python runtime fragment *)
(* ===================================================================== *)

Module Py.

(** The built-in exceptions the codec can raise. *)
Inductive exception : Type :=
| ValueError
| IndexError
| OverflowError
| TypeError.

(** A computation either returns or raises. *)
Inductive result (A : Type) : Type :=
| Ok (a : A)
| Raise (e : exception).
Arguments Ok {A} a.
Arguments Raise {A} e.

Definition bind {A B : Type} (c : result A) (k : A -> result B) : result B :=
  match c with
  | Ok a => k a
  | Raise e => Raise e
  end.

Abbreviation bytearray := (list byte).

(** The integer a byte stands for. *)
Definition byte_val (b : byte) : Z := Z.of_N (Byte.to_N b).

(** Storing an integer into a [bytearray] slot: "byte must be in
    range(0, 256)". *)
Definition as_byte (v : Z) : result byte :=
  if (0 <=? v) && (v <? 256) then
    match Byte.of_N (Z.to_N v) with
    | Some b => Ok b
    | None => Raise ValueError
    end
  else Raise ValueError.

(** The byte of an integer taken modulo 256 (always in range). *)
Definition byte_of_Z (v : Z) : byte :=
  match Byte.of_N (Z.to_N (v mod 256)) with
  | Some b => b
  | None => x00
  end.

(** [bytearray(iterable_of_ints)] and [bytearray.append]. *)
Fixpoint bytearray_of (vs : list Z) : result bytearray :=
  match vs with
  | [] => Ok []
  | v :: vs' =>
      match as_byte v with
      | Ok b => match bytearray_of vs' with
                | Ok bs => Ok (b :: bs)
                | Raise e => Raise e
                end
      | Raise e => Raise e
      end
  end.

Definition append (msg : bytearray) (v : Z) : result bytearray :=
  bind (as_byte v) (fun b => Ok (msg ++ [b])).

(** [bytearray(n)]: [n] zero bytes. *)
Definition zeros (n : nat) : bytearray := replicate n x00.

(** Index normalisation: a negative index counts from the end. *)
Definition index (len : nat) (i : Z) : result nat :=
  let j := if i <? 0 then i + Z.of_nat len else i in
  if (0 <=? j) && (j <? Z.of_nat len) then Ok (Z.to_nat j) else Raise IndexError.

(** [msg[i]] *)
Definition getitem (msg : bytearray) (i : Z) : result Z :=
  bind (index (length msg) i) (fun k =>
    match msg !! k with
    | Some b => Ok (byte_val b)
    | None => Raise IndexError
    end).

(** [msg[i] = v]: the value is converted first, then the index checked. *)
Definition setitem (msg : bytearray) (i : Z) (v : Z) : result bytearray :=
  bind (as_byte v) (fun b =>
  bind (index (length msg) i) (fun k =>
    Ok (<[k := b]> msg))).

(** [msg[lo:hi] = new] for non-negative bounds: the slice is clamped to
    the array, and the array may change its length. *)
Definition setslice (msg : bytearray) (lo hi : nat) (new : bytearray) : bytearray :=
  take lo msg ++ new ++ drop (Nat.max lo hi) msg.

(** [int.from_bytes(bs, byteorder="big")] *)
Definition from_bytes_big (bs : bytearray) : Z :=
  fold_left (fun acc b => acc * 256 + byte_val b) bs 0.

(** [n.to_bytes(len, byteorder="big")] for an unsigned conversion. *)
Fixpoint big_endian (len : nat) (n : Z) : bytearray :=
  match len with
  | O => []
  | S k => byte_of_Z (Z.shiftr n (8 * Z.of_nat k)) :: big_endian k n
  end.

Definition to_bytes_big (n : Z) (len : nat) : result bytearray :=
  if n <? 0 then Raise OverflowError
  else if 2 ^ (8 * Z.of_nat len) <=? n then Raise OverflowError
  else Ok (big_endian len n).

(** [reduce(lambda x, y: x + y, msg)]: no initial value, so an empty
    sequence is a [TypeError]. *)
Definition reduce_add (msg : bytearray) : result Z :=
  match msg with
  | [] => Raise TypeError
  | b :: bs => Ok (fold_left (fun x y => x + byte_val y) bs (byte_val b))
  end.

(** One lower-case hexadecimal digit. *)
Definition hex_digit (n : Z) : ascii :=
  if n <? 10 then ascii_of_N (Z.to_N (48 + n)) else ascii_of_N (Z.to_N (87 + n)).

(** [bytes.hex()] *)
Fixpoint hex (msg : bytearray) : string :=
  match msg with
  | [] => EmptyString
  | b :: bs =>
      String (hex_digit (byte_val b / 16))
        (String (hex_digit (byte_val b mod 16)) (hex bs))
  end.

(** [str.upper()] on the ASCII range. *)
Definition upper_char (c : ascii) : ascii :=
  let n := Z.of_N (N_of_ascii c) in
  if (97 <=? n) && (n <=? 122) then ascii_of_N (Z.to_N (n - 32)) else c.

Fixpoint upper (s : string) : string :=
  match s with
  | EmptyString => EmptyString
  | String c s' => String (upper_char c) (upper s')
  end.

(** The value of a hexadecimal digit, either case. *)
Definition digit_value (c : ascii) : option Z :=
  let n := Z.of_N (N_of_ascii c) in
  if (48 <=? n) && (n <=? 57) then Some (n - 48)
  else if (97 <=? n) && (n <=? 102) then Some (n - 87)
  else if (65 <=? n) && (n <=? 70) then Some (n - 55)
  else None.

(** ASCII white space, skipped by [fromhex] between bytes. *)
Definition isspace (c : ascii) : bool :=
  let n := Z.of_N (N_of_ascii c) in
  ((9 <=? n) && (n <=? 13)) || (n =? 32).

(** [bytearray.fromhex(s)]: two digits per byte, white space allowed
    before a byte, anything else is a [ValueError]. *)
Fixpoint fromhex (s : string) : result bytearray :=
  match s with
  | EmptyString => Ok []
  | String c s' =>
      if isspace c then fromhex s'
      else
        match digit_value c with
        | None => Raise ValueError
        | Some top =>
            match s' with
            | EmptyString => Raise ValueError
            | String d s'' =>
                match digit_value d with
                | None => Raise ValueError
                | Some bot =>
                    match fromhex s'' with
                    | Ok rest => Ok (byte_of_Z (top * 16 + bot) :: rest)
                    | Raise e => Raise e
                    end
                end
            end
        end
  end.

(** [str(n)] of an integer, as an f-string prints it: its decimal digits,
    after a minus sign when it is negative. *)
Definition str_int (n : Z) : string := NilEmpty.string_of_int (Z.to_int n).

End Py.

Import Py.

Declare Scope py_scope.
Notation "x <- c ;; k" := (bind c (fun x => k))
  (at level 100, c at next level, right associativity) : py_scope.
Local Open Scope py_scope.

(* ===================================================================== *)
(** ** Records *)
(* ===================================================================== *)

(** [Message = namedtuple("Message", "link repeater_req length ack_req
    tx_count tx_seq network_id dest_id src_id msg_id data")] *)
Module Message.
Record t : Type := mk {
  link : bool;
  repeater_req : Z;
  length : Z;
  ack_req : Z;
  tx_count : Z;
  tx_seq : Z;
  network_id : Z;
  dest_id : Z;
  src_id : Z;
  msg_id : Z;
  data : bytearray
}.
End Message.

(** The address objects the encoder consumes ([UpbAddr], [LinkAddr]):
    only the attributes that [message.py] reads. *)
Module Addr.
Record t : Type := mk {
  network_id : Z;
  upb_id : Z;
  channel : Z;
  multi_channel : bool;
  is_link : bool;
  is_device : bool
}.
End Addr.

Definition PIM_ID : Z := 0xFF.

(* ===================================================================== *)
(** ** MessageDecode *)
(* ===================================================================== *)

Module MessageDecode.

(** [decode(self, msg)] *)
Definition decode (msg : bytearray) : result Message.t :=
  if (Z.of_nat (length msg) <? 6) then Raise ValueError
  else
    let control := from_bytes_big (take 2 msg) in
    network_id <- getitem msg 2 ;;
    dest_id <- getitem msg 3 ;;
    src_id <- getitem msg 4 ;;
    msg_id <- getitem msg 5 ;;
    Ok {| Message.link := negb (Z.land control 0x8000 =? 0);
          Message.repeater_req := Z.land (Z.shiftr control 13) 3;
          Message.length := Z.land (Z.shiftr control 8) 31;
          Message.ack_req := Z.land (Z.shiftr control 4) 7;
          Message.tx_count := Z.land (Z.shiftr control 2) 3;
          Message.tx_seq := Z.land control 3;
          Message.network_id := network_id;
          Message.dest_id := dest_id;
          Message.src_id := src_id;
          Message.msg_id := msg_id;
          Message.data := drop 6 msg |}.

(** The handler registry [self._handlers]: a dict from message type to
    the list of callbacks, in registration order.  Callbacks are compared
    by [in], that is by equality of the callable objects. *)
Section Handlers.
Context {H : Type} `{EqDecision H}.

(** [__init__] *)
Definition init : gmap Z (list H) := ∅.

(** [add_handler(self, message_type, handler)] *)
Definition add_handler (message_type : Z) (handler : H)
    (_handlers : gmap Z (list H)) : gmap Z (list H) :=
  let upb_command := message_type in
  let _handlers :=
    match _handlers !! upb_command with
    | None => <[upb_command := []]> _handlers
    | Some _ => _handlers
    end in
  (* [self._handlers[upb_command]]: the key is present at this point *)
  let registered := default [] (_handlers !! upb_command) in
  if bool_decide (handler ∈ registered) then _handlers
  else <[upb_command := registered ++ [handler]]> _handlers.

(** [call_handlers(self, cmd, message)]: the callbacks invoked, in
    order ([self._handlers.get(cmd, [])]). *)
Definition call_handlers (cmd : Z) (_handlers : gmap Z (list H)) : list H :=
  default [] (_handlers !! cmd).


(** The registry after a sequence of registrations on a new decoder. *)
Definition registrations (ops : list (Z * H)) : gmap Z (list H) :=
  foldl (fun reg op => add_handler op.1 op.2 reg) init ops.
End Handlers.

End MessageDecode.

(* ===================================================================== *)
(** ** Checksum and MessageEncode *)
(* ===================================================================== *)

(** [_update_checksum(msg)] *)
Definition _update_checksum (msg : bytearray) : result bytearray :=
  total <- reduce_add msg ;;
  setitem msg (-1) ((256 - total) mod 256).

(** [const.UpbCommand]: the encoder reads the [.value] of seven members of
    the enumeration; the table itself is supplied by the caller. *)
Module UpbCommand.
Record table : Type := mk {
  ACTIVATE : Z;
  DEACTIVATE : Z;
  GOTO : Z;
  FADE_START : Z;
  FADE_STOP : Z;
  BLINK : Z;
  REPORT_STATE : Z
}.
End UpbCommand.

Module MessageEncode.

(** The encoder object holds the injected [get_tx_count]. *)
Record t : Type := mk { get_tx_count : Z -> Z -> Z }.

(** [_create_control_word(self, addr, repeater=0, ack=0)] *)
Definition _create_control_word (self : t) (addr : Addr.t) (repeater ack : Z) : Z :=
  let ctl := Z.shiftl (if Addr.is_link addr then 1 else 0) 15 in
  let ctl := Z.lor ctl (Z.shiftl repeater 13) in
  let ctl := Z.lor ctl (Z.shiftl ack 4) in
  let ctl :=
    Z.lor ctl
      (Z.shiftl (get_tx_count self (Addr.network_id addr) (Addr.upb_id addr) - 1) 2) in
  ctl.

(** The frame that [_encode_message] assembles, before it is printed. *)
Definition _encode_message_frame (self : t) (ctl : Z) (addr : Addr.t)
    (src_id msg_code : Z) (data : bytearray) : result bytearray :=
  let ctl := if ctl =? -1 then _create_control_word self addr 0 0 else ctl in
  let length_ := 7 + Z.of_nat (length data) in
  let ctl := Z.lor ctl (Z.shiftl length_ 8) in
  let msg := zeros (7 + length data) in
  control <- to_bytes_big ctl 2 ;;
  let msg := setslice msg 0 2 control in
  msg <- setitem msg 2 (Addr.network_id addr) ;;
  msg <- setitem msg 3 (Addr.upb_id addr) ;;
  msg <- setitem msg 4 src_id ;;
  msg <- setitem msg 5 msg_code ;;
  let msg :=
    match data with
    | [] => msg
    | _ :: _ => setslice msg 6 (length data + 6) data
    end in
  _update_checksum msg.

(** [_encode_message(self, ctl, addr, src_id, msg_code, data="")] *)
Definition _encode_message (self : t) (ctl : Z) (addr : Addr.t)
    (src_id msg_code : Z) (data : bytearray) : result string :=
  msg <- _encode_message_frame self ctl addr src_id msg_code data ;;
  Ok (upper (hex msg)).

(** [increment_tx_count(hex_msg)] *)
Definition increment_tx_count (hex_msg : string) : result string :=
  msg <- fromhex hex_msg ;;
  ctl <- getitem msg 1 ;;
  let tx_count := Z.land (Z.shiftr ctl 2) 3 in
  if tx_count =? 3 then Ok hex_msg
  else
    let ctl := Z.land ctl (Z.lnot (Z.shiftl 3 2)) in
    let ctl := Z.lor ctl (Z.shiftl (tx_count + 1) 2) in
    msg <- setitem msg 1 ctl ;;
    msg <- setitem msg (-1) 0 ;;
    msg <- _update_checksum msg ;;
    let new_msg := upper (hex msg) in
    Ok new_msg.

(** The argument bytes that [_encode_common] builds ([rate] is already
    an integer, so [int(rate)] leaves it as it is). *)
Definition _encode_common_args (addr : Addr.t) (level rate : Z) : result bytearray :=
  args <- bytearray_of [level] ;;
  if Addr.is_device addr && Addr.multi_channel addr then
    args <- append args (if rate =? -1 then 0xFF else rate) ;;
    append args (Addr.channel addr + 1)
  else if negb (rate =? -1) then
    append args rate
  else Ok args.

Section Commands.
Variable UpbCommand : UpbCommand.table.

(** [activate_link(self, addr, ctl=-1)] *)
Definition activate_link (self : t) (addr : Addr.t) (ctl : Z) : result string :=
  _encode_message self ctl addr PIM_ID (UpbCommand.ACTIVATE UpbCommand) [].

(** [deactivate_link(self, addr, ctl=-1)] *)
Definition deactivate_link (self : t) (addr : Addr.t) (ctl : Z) : result string :=
  _encode_message self ctl addr PIM_ID (UpbCommand.DEACTIVATE UpbCommand) [].

(** [_encode_common(self, ctl, addr, cmd, level, rate)] *)
Definition _encode_common (self : t) (ctl : Z) (addr : Addr.t) (cmd level rate : Z)
    : result string :=
  args <- _encode_common_args addr level rate ;;
  _encode_message self ctl addr PIM_ID cmd args.

(** [goto(self, addr, level, rate, ctl=-1)] *)
Definition goto (self : t) (addr : Addr.t) (level rate ctl : Z) : result string :=
  _encode_common self ctl addr (UpbCommand.GOTO UpbCommand) level rate.

(** [fade_start(self, addr, level, rate, ctl=-1)] *)
Definition fade_start (self : t) (addr : Addr.t) (level rate ctl : Z) : result string :=
  _encode_common self ctl addr (UpbCommand.FADE_START UpbCommand) level rate.

(** [fade_stop(self, addr, ctl=-1)] *)
Definition fade_stop (self : t) (addr : Addr.t) (ctl : Z) : result string :=
  _encode_message self ctl addr PIM_ID (UpbCommand.FADE_STOP UpbCommand) [].

(** [blink(self, addr, rate, ctl=-1)] *)
Definition blink (self : t) (addr : Addr.t) (rate ctl : Z) : result string :=
  args <- bytearray_of [rate] ;;
  _encode_message self ctl addr PIM_ID (UpbCommand.BLINK UpbCommand) args.

(** [report_state(self, addr, ctl=-1)] *)
Definition report_state (self : t) (addr : Addr.t) (ctl : Z) : result string :=
  _encode_message self ctl addr PIM_ID (UpbCommand.REPORT_STATE UpbCommand) [].
End Commands.

End MessageEncode.

(* ===================================================================== *)
(** ** lights.py *)
(* ===================================================================== *)

(** [UpbAddr(network_id, upb_id, channel).index] for integer arguments:
    the f-string ["{network_id}_{upb_id}_{channel}"] built by
    [UpbAddr.__init__]. *)
Definition UpbAddr_index (network_id upb_id channel : Z) : string :=
  (str_int network_id ++ "_" ++ str_int upb_id ++ "_" ++ str_int channel)%string.

(** [Light]: the helper methods.  A method sends encoded commands through
    the PIM and sets the [status] attribute; it is modelled by what it
    sends, in order, and the status it sets.  [seconds_to_rate] (util.py)
    and the PIM's flags are supplied by the caller; levels and rates are
    integers. *)
Module Light.

(** The command handed to [self._pim.send], with the arguments the
    encoding function is called on. *)
Inductive sent : Type :=
| Goto (brightness rate : Z)
| FadeStart (brightness rate : Z)
| FadeStop
| Blink (rate : Z)
| ReportState.

Section Methods.
Variable seconds_to_rate : Z -> Z.
(** [self._pim.flags]; [flags.get(name)] is read for its truth value. *)
Variable flags : gmap string bool.

Definition flag (name : string) : bool := default false (flags !! name).




(** [fade_start(self, brightness, rate=-1)] *)
Definition fade_start (brightness rate : Z) : list sent * Z :=
  ([FadeStart brightness rate], brightness).

(** [fade_stop(self)]: two commands, no status. *)
Definition fade_stop : list sent := [FadeStop; ReportState].

(** [blink(self, rate=-1)] *)
Definition blink (rate : Z) : list sent * Z :=
  let rate :=
    if (rate <? 30) && negb (flag "unlimited_blink_rate") then 30 else rate in
  ([Blink rate], 100).

(** [update_status(self)] *)
Definition update_status : list sent := [ReportState].
End Methods.

End Light.

(** [Lights]: the handlers registered with the decoder.  [elements] is
    the dict [self.pim.lights.elements], from index string to light object;
    a handler is modelled by the [setattr("status", level)] calls it makes,
    in order, as pairs of the light and the level. *)
Module Lights.
Section Handlers.
Context {L : Type}.
Variable elements : gmap string L.

(** The body of the loop of [_device_state_report_handler], for [n] more
    rounds from channel [i]; leaving the loop ends the handler. *)
Fixpoint _device_state_report_loop (msg : Message.t) (n i : nat)
    : result (list (L * Z)) :=
  match n with
  | O => Ok []
  | S n' =>
      let status_length := length (Message.data msg) in
      if (status_length <=? i)%nat then Ok []
      else
        let index :=
          UpbAddr_index (Message.network_id msg) (Message.src_id msg) (Z.of_nat i) in
        match elements !! index with
        | None => Ok []
        | Some light =>
            level <- getitem (Message.data msg) (Z.of_nat i) ;;
            calls <- _device_state_report_loop msg n' (S i) ;;
            Ok ((light, level) :: calls)
        end
  end.

(** [_device_state_report_handler(self, msg)]: [for i in range(0, 100)] *)
Definition _device_state_report_handler (msg : Message.t) : result (list (L * Z)) :=
  _device_state_report_loop msg 100 0.

(** [_goto_handler(self, msg)] *)
Definition _goto_handler (msg : Message.t) : result (list (L * Z)) :=
  if Message.link msg then Ok []
  else
    channel <-
      (if (2 <? length (Message.data msg))%nat then getitem (Message.data msg) 2
       else Ok 0) ;;
    let index :=
      UpbAddr_index (Message.network_id msg) (Message.dest_id msg) channel in
    match elements !! index with
    | Some light =>
        level <- getitem (Message.data msg) 0 ;;
        Ok [(light, level)]
    | None => Ok []
    end.
End Handlers.
End Lights.

Import MessageDecode MessageEncode.

(* ===================================================================== *)
(** ** Notions used in the statements *)
(* ===================================================================== *)

(** The bit field [hi..lo] of an integer, read arithmetically. *)
Definition bits (x hi lo : Z) : Z := (x / 2 ^ lo) mod 2 ^ (hi - lo + 1).

(** The sum of the bytes of a frame. *)
Definition byte_sum (msg : bytearray) : Z :=
  fold_right (fun b acc => byte_val b + acc) 0 msg.

(** The checksum byte written over the last position. *)
Definition checksum_of (body : bytearray) (last : byte) : byte :=
  byte_of_Z ((256 - (byte_sum body + byte_val last)) mod 256).

(** Every list of the registry is free of repetitions. *)
Definition registry_nodup {H : Type} (reg : gmap Z (list H)) : Prop :=
  forall c hs, reg !! c = Some hs -> NoDup hs.

(** A list without its repetitions, each element kept where it first
    occurs. *)
Definition keep_first {A : Type} `{EqDecision A} (l : list A) : list A :=
  reverse (remove_dups (reverse l)).

(** The callbacks that a sequence of registrations names for a command
    code, in the order of the calls. *)
Definition registered_for {H : Type} (c : Z) (ops : list (Z * H)) : list H :=
  (filter (fun op => op.1 = c) ops).*2.

(** A string in which no underscore occurs. *)
Definition no_underscore (s : string) : Prop :=
  ~ In "_"%char (list_ascii_of_string s).

(** A digit 0-9 or a capital A-F. *)
Definition is_upper_hex_digit (c : ascii) : bool :=
  existsb (Ascii.eqb c) (list_ascii_of_string "0123456789ABCDEF").

(** Decoding the bytes of a hex string: [decode(bytes.fromhex(s))]. *)
Definition decode_hex (s : string) : result Message.t :=
  msg <- fromhex s ;;
  decode msg.

(** The control word that [_encode_message] puts on the wire: the given or
    the built one, with the total length merged in. *)
Definition wire_control (self : MessageEncode.t) (ctl : Z) (addr : Addr.t)
    (data : bytearray) : Z :=
  Z.lor (if ctl =? -1 then _create_control_word self addr 0 0 else ctl)
        (Z.shiftl (7 + Z.of_nat (length data)) 8).

(** The payload as the specification words it: the level; for a
    multi-channel device the rate (0xFF when the rate is -1) and the channel
    plus one; otherwise the rate when it is not -1. *)
Definition level_rate_payload (addr : Addr.t) (level rate : Z) : list Z :=
  if Addr.is_device addr && Addr.multi_channel addr then
    [level; if rate =? -1 then 0xFF else rate; Addr.channel addr + 1]
  else if negb (rate =? -1) then [level; rate]
  else [level].

(** The tx-count field of a hex frame: bits 3-2 of the byte at index 1. *)
Definition tx_count_field (hex_msg : string) : result Z :=
  msg <- fromhex hex_msg ;;
  ctl <- getitem msg 1 ;;
  Ok (bits ctl 3 2).

(** The byte at index 1 after the bump, as [increment_tx_count] computes it. *)
Definition bumped (b : byte) : Z :=
  Z.lor (Z.land (byte_val b) (Z.lnot (Z.shiftl 3 2)))
        (Z.shiftl (Z.land (Z.shiftr (byte_val b) 2) 3 + 1) 2).

(** An encoder whose counter always declares one transmission, and a
    single-channel device address, for the examples below. *)
Definition one_transmit : MessageEncode.t := MessageEncode.mk (fun _ _ => 1).
Definition device_1_2 : Addr.t := Addr.mk 1 2 0 false false true.

(** An encoder whose counter declares three transmissions, and a link
    address. *)
Definition three_transmits : MessageEncode.t := MessageEncode.mk (fun _ _ => 3).
Definition link_1_9 : Addr.t := Addr.mk 1 9 0 false true false.

(* ===================================================================== *)
(** ** Facts about the runtime fragment *)
(* ===================================================================== *)

Section RuntimeFacts.

Lemma byte_val_range (b : byte) : 0 <= byte_val b < 256.
Proof.
  unfold byte_val. pose proof (Byte.to_N_bounded b). lia.
Qed.

Lemma byte_of_Z_val (v : Z) : byte_val (byte_of_Z v) = v mod 256.
Proof.
  unfold byte_of_Z, byte_val.
  assert (Hr : 0 <= v mod 256 < 256) by (apply Z.mod_pos_bound; lia).
  destruct (Byte.of_N (Z.to_N (v mod 256))) as [b|] eqn:E.
  - apply Byte.to_of_N in E. rewrite E. lia.
  - apply Byte.of_N_None_iff in E. lia.
Qed.

Lemma byte_of_Z_byte_val (b : byte) : byte_of_Z (byte_val b) = b.
Proof.
  unfold byte_of_Z. rewrite Z.mod_small by apply byte_val_range.
  unfold byte_val. rewrite N2Z.id, Byte.of_to_N. reflexivity.
Qed.

Lemma as_byte_in_range (v : Z) : 0 <= v < 256 -> as_byte v = Ok (byte_of_Z v).
Proof.
  intros Hv. unfold as_byte, byte_of_Z.
  replace ((0 <=? v) && (v <? 256)) with true
    by (symmetry; apply andb_true_iff; split; [apply Z.leb_le | apply Z.ltb_lt]; lia).
  rewrite Z.mod_small by lia.
  destruct (Byte.of_N (Z.to_N v)) eqn:E; [reflexivity|].
  apply Byte.of_N_None_iff in E. lia.
Qed.

Lemma as_byte_out_of_range (v : Z) : ~ 0 <= v < 256 -> as_byte v = Raise ValueError.
Proof.
  intros Hv. unfold as_byte.
  destruct ((0 <=? v) && (v <? 256)) eqn:E; [|reflexivity].
  apply andb_true_iff in E as [E1 E2].
  apply Z.leb_le in E1. apply Z.ltb_lt in E2. lia.
Qed.

Lemma index_nonneg (len : nat) (i : Z) :
  0 <= i < Z.of_nat len -> index len i = Ok (Z.to_nat i).
Proof.
  intros Hi. unfold index.
  destruct (Z.ltb_spec i 0); [lia|].
  destruct (Z.leb_spec 0 i); [|lia].
  destruct (Z.ltb_spec i (Z.of_nat len)); [reflexivity|lia].
Qed.

Lemma index_last (len : nat) : (0 < len)%nat -> index len (-1) = Ok (len - 1)%nat.
Proof.
  intros Hl. unfold index.
  destruct (Z.ltb_spec (-1) 0); [|lia].
  destruct (Z.leb_spec 0 (-1 + Z.of_nat len)); [|lia].
  destruct (Z.ltb_spec (-1 + Z.of_nat len) (Z.of_nat len)); [|lia].
  simpl. f_equal. lia.
Qed.

Lemma getitem_lookup (msg : bytearray) (k : nat) (b : byte) :
  msg !! k = Some b -> getitem msg (Z.of_nat k) = Ok (byte_val b).
Proof.
  intros Hk. unfold getitem.
  pose proof (lookup_lt_Some _ _ _ Hk) as Hlt.
  rewrite index_nonneg by lia. simpl. rewrite Nat2Z.id, Hk. reflexivity.
Qed.

Lemma setitem_in_range (msg : bytearray) (k : nat) (v : Z) :
  (k < length msg)%nat -> 0 <= v < 256 ->
  setitem msg (Z.of_nat k) v = Ok (<[k := byte_of_Z v]> msg).
Proof.
  intros Hk Hv. unfold setitem.
  rewrite as_byte_in_range by assumption. simpl.
  rewrite index_nonneg by lia. simpl. now rewrite Nat2Z.id.
Qed.

Lemma setitem_last (msg : bytearray) (v : Z) :
  (0 < length msg)%nat -> 0 <= v < 256 ->
  setitem msg (-1) v = Ok (<[(length msg - 1)%nat := byte_of_Z v]> msg).
Proof.
  intros Hk Hv. unfold setitem.
  rewrite as_byte_in_range by assumption. simpl.
  rewrite index_last by assumption. reflexivity.
Qed.

End RuntimeFacts.

(* ===================================================================== *)
(** ** Bit fields *)
(* ===================================================================== *)

Section BitFacts.

(** A shift followed by a mask of [n] ones reads a bit field. *)
Lemma land_shiftr_ones (x lo n : Z) :
  0 <= lo -> 0 <= n ->
  Z.land (Z.shiftr x lo) (Z.ones n) = bits x (lo + n - 1) lo.
Proof.
  intros Hlo Hn. unfold bits.
  rewrite Z.land_ones by assumption.
  rewrite Z.shiftr_div_pow2 by assumption.
  f_equal. f_equal. lia.
Qed.

Lemma land_ones_bits (x n : Z) : 0 <= n -> Z.land x (Z.ones n) = bits x (n - 1) 0.
Proof.
  intros Hn. rewrite <- (Z.shiftr_0_r x) at 1.
  rewrite land_shiftr_ones by lia. reflexivity.
Qed.

(** Testing one bit with a mask. *)
Lemma land_pow2_testbit (x k : Z) :
  0 <= k -> negb (Z.land x (2 ^ k) =? 0) = Z.testbit x k.
Proof.
  intros Hk.
  assert (E : Z.land x (2 ^ k) = if Z.testbit x k then 2 ^ k else 0).
  { apply Z.bits_inj'. intros n Hn.
    rewrite Z.land_spec, Z.pow2_bits_eqb by assumption.
    destruct (Z.eqb_spec k n) as [->|Hne].
    - destruct (Z.testbit x n) eqn:T.
      + rewrite Z.pow2_bits_eqb, Z.eqb_refl by assumption. reflexivity.
      + rewrite Z.bits_0. reflexivity.
    - rewrite andb_false_r.
      destruct (Z.testbit x k).
      + rewrite Z.pow2_bits_eqb by assumption.
        symmetry. apply Z.eqb_neq. assumption.
      + rewrite Z.bits_0. reflexivity. }
  rewrite E. destruct (Z.testbit x k); [|reflexivity].
  assert (0 < 2 ^ k) by (apply Z.pow_pos_nonneg; lia).
  destruct (Z.eqb_spec (2 ^ k) 0); [lia|reflexivity].
Qed.

Lemma bits_range (x hi lo : Z) : lo <= hi -> 0 <= bits x hi lo < 2 ^ (hi - lo + 1).
Proof.
  intros H. unfold bits. apply Z.mod_pos_bound. apply Z.pow_pos_nonneg; lia.
Qed.

End BitFacts.

(* ===================================================================== *)
(** ** The decoder *)
(* ===================================================================== *)

Section DecodeFacts.

Lemma from_bytes_big_2 (b0 b1 : byte) :
  from_bytes_big [b0; b1] = 256 * byte_val b0 + byte_val b1.
Proof. unfold from_bytes_big. simpl. lia. Qed.

Lemma decode_short (msg : bytearray) :
  (length msg < 6)%nat -> decode msg = Raise ValueError.
Proof.
  intros Hl. unfold decode.
  destruct (Z.ltb_spec (Z.of_nat (length msg)) 6); [reflexivity|lia].
Qed.

(** What [decode] computes on a frame with a full header. *)
Lemma decode_header (b0 b1 b2 b3 b4 b5 : byte) (rest : bytearray) :
  let control := 256 * byte_val b0 + byte_val b1 in
  decode (b0 :: b1 :: b2 :: b3 :: b4 :: b5 :: rest) =
    Ok {| Message.link := negb (Z.land control 0x8000 =? 0);
          Message.repeater_req := Z.land (Z.shiftr control 13) 3;
          Message.length := Z.land (Z.shiftr control 8) 31;
          Message.ack_req := Z.land (Z.shiftr control 4) 7;
          Message.tx_count := Z.land (Z.shiftr control 2) 3;
          Message.tx_seq := Z.land control 3;
          Message.network_id := byte_val b2;
          Message.dest_id := byte_val b3;
          Message.src_id := byte_val b4;
          Message.msg_id := byte_val b5;
          Message.data := rest |}.
Proof.
  intros control. unfold decode.
  set (msg := b0 :: b1 :: b2 :: b3 :: b4 :: b5 :: rest).
  destruct (Z.ltb_spec (Z.of_nat (length msg)) 6) as [Hlt|_].
  { subst msg. simpl length in Hlt. lia. }
  rewrite (getitem_lookup msg 2 b2 eq_refl : getitem msg 2 = _).
  rewrite (getitem_lookup msg 3 b3 eq_refl : getitem msg 3 = _).
  rewrite (getitem_lookup msg 4 b4 eq_refl : getitem msg 4 = _).
  rewrite (getitem_lookup msg 5 b5 eq_refl : getitem msg 5 = _).
  subst msg. cbn [bind take drop firstn skipn].
  rewrite from_bytes_big_2. reflexivity.
Qed.

End DecodeFacts.

(** C2: [decode] raises its [ValueError] (the spec's MalformedFrame), and
    nothing else, exactly on the inputs of fewer than 6 bytes; on every
    input of at least 6 bytes it returns a message.  Being a function of its
    argument alone, it is deterministic and has no effect. *)
Theorem decode_malformed_iff_short (msg : bytearray) :
  (decode msg = Raise ValueError <-> (length msg < 6)%nat) /\
  ((exists e, decode msg = Raise e) <-> (length msg < 6)%nat) /\
  ((exists m, decode msg = Ok m) <-> (6 <= length msg)%nat).
Proof.
  destruct (Nat.lt_ge_cases (length msg) 6) as [Hs|Hl].
  - pose proof (decode_short msg Hs) as E. rewrite E.
    repeat split; intros; try lia; try reflexivity.
    + exists ValueError. reflexivity.
    + destruct H as [m Hm]. discriminate.
  - destruct msg as [|b0 [|b1 [|b2 [|b3 [|b4 [|b5 rest]]]]]];
      simpl in Hl; try lia.
    rewrite decode_header.
    repeat split; intros; simpl length in *; try lia; try discriminate.
    + destruct H as [e He]. discriminate.
    + eexists. reflexivity.
Qed.

(** A frame whose control word has bit 7 set: [decode] does not report it
    in [ack_req], which differs from the four-bit field 7-4. *)
Lemma decode_ack_req_drops_bit_7 :
  exists m,
    decode [x00; x80; x01; x02; xff; x22] = Ok m /\
    Message.ack_req m = 0 /\
    bits (from_bytes_big [x00; x80]) 7 4 = 8.
Proof.
  eexists. split; [reflexivity|]. split; reflexivity.
Qed.

(** C6 (amended): on every input of at least 6 bytes, [decode] reads bytes
    0-1 as a big-endian control word and returns link = bit 15,
    repeater_req = bits 14-13, length = bits 12-8, ack_req = bits 6-4 (three
    bits: bit 7 is not read), tx_count = bits 3-2, tx_seq = bits 1-0,
    network_id, dest_id, src_id, msg_id = bytes 2, 3, 4, 5, and data = the
    remaining bytes. *)
Theorem decode_fields (msg : bytearray) :
  (6 <= length msg)%nat ->
  exists b0 b1 b2 b3 b4 b5,
    msg = b0 :: b1 :: b2 :: b3 :: b4 :: b5 :: drop 6 msg /\
    from_bytes_big (take 2 msg) = 256 * byte_val b0 + byte_val b1 /\
    decode msg =
      Ok {| Message.link := Z.testbit (256 * byte_val b0 + byte_val b1) 15;
            Message.repeater_req := bits (256 * byte_val b0 + byte_val b1) 14 13;
            Message.length := bits (256 * byte_val b0 + byte_val b1) 12 8;
            Message.ack_req := bits (256 * byte_val b0 + byte_val b1) 6 4;
            Message.tx_count := bits (256 * byte_val b0 + byte_val b1) 3 2;
            Message.tx_seq := bits (256 * byte_val b0 + byte_val b1) 1 0;
            Message.network_id := byte_val b2;
            Message.dest_id := byte_val b3;
            Message.src_id := byte_val b4;
            Message.msg_id := byte_val b5;
            Message.data := drop 6 msg |}.
Proof.
  intros Hl.
  destruct msg as [|b0 [|b1 [|b2 [|b3 [|b4 [|b5 rest]]]]]];
    simpl in Hl; try lia.
  exists b0, b1, b2, b3, b4, b5.
  split; [reflexivity|]. split.
  { cbn [take firstn]. apply from_bytes_big_2. }
  rewrite decode_header. cbv zeta. cbn [drop skipn].
  set (control := 256 * byte_val b0 + byte_val b1).
  f_equal. f_equal.
  - apply (land_pow2_testbit control 15). lia.
  - apply (land_shiftr_ones control 13 2); lia.
  - apply (land_shiftr_ones control 8 5); lia.
  - apply (land_shiftr_ones control 4 3); lia.
  - apply (land_shiftr_ones control 2 2); lia.
  - apply (land_ones_bits control 2); lia.
Qed.

Lemma decode_fields_witness :
  exists b0 b1 b2 b3 b4 b5,
    [x89; x04; x01; x0c; xff; x22; x32] =
      b0 :: b1 :: b2 :: b3 :: b4 :: b5 :: drop 6 [x89; x04; x01; x0c; xff; x22; x32] /\
    from_bytes_big (take 2 [x89; x04; x01; x0c; xff; x22; x32]) =
      256 * byte_val b0 + byte_val b1 /\
    decode [x89; x04; x01; x0c; xff; x22; x32] =
      Ok {| Message.link := Z.testbit (256 * byte_val b0 + byte_val b1) 15;
            Message.repeater_req := bits (256 * byte_val b0 + byte_val b1) 14 13;
            Message.length := bits (256 * byte_val b0 + byte_val b1) 12 8;
            Message.ack_req := bits (256 * byte_val b0 + byte_val b1) 6 4;
            Message.tx_count := bits (256 * byte_val b0 + byte_val b1) 3 2;
            Message.tx_seq := bits (256 * byte_val b0 + byte_val b1) 1 0;
            Message.network_id := byte_val b2;
            Message.dest_id := byte_val b3;
            Message.src_id := byte_val b4;
            Message.msg_id := byte_val b5;
            Message.data := drop 6 [x89; x04; x01; x0c; xff; x22; x32] |}.
Proof.
  apply (decode_fields [x89; x04; x01; x0c; xff; x22; x32]). simpl. lia.
Defined.

(* ===================================================================== *)
(** ** The handler registry *)
(* ===================================================================== *)

Section HandlerFacts.
Context {H : Type} `{EqDecision H}.
Implicit Types (reg : gmap Z (list H)) (c : Z) (h : H) (hs : list H).

Lemma add_handler_registered reg c h hs :
  reg !! c = Some hs -> h ∈ hs -> add_handler c h reg = reg.
Proof.
  intros Hc Hin. unfold add_handler. rewrite Hc. simpl. rewrite Hc. simpl.
  rewrite bool_decide_eq_true_2 by assumption. reflexivity.
Qed.

Lemma add_handler_lookup reg c h :
  add_handler c h reg !! c =
    Some (let hs := default [] (reg !! c) in
          if bool_decide (h ∈ hs) then hs else hs ++ [h]).
Proof.
  unfold add_handler. destruct (reg !! c) as [hs|] eqn:Hc; simpl.
  - rewrite Hc. simpl. destruct (bool_decide (h ∈ hs)).
    + exact Hc.
    + apply lookup_insert_eq.
  - rewrite lookup_insert_eq. simpl. apply lookup_insert_eq.
Qed.

Lemma add_handler_lookup_ne reg c c' h :
  c <> c' -> add_handler c h reg !! c' = reg !! c'.
Proof.
  intros Hne. unfold add_handler.
  destruct (reg !! c) as [hs|] eqn:Hc; simpl.
  - rewrite Hc. simpl. destruct (bool_decide (h ∈ hs)); [reflexivity|].
    now rewrite lookup_insert_ne.
  - rewrite lookup_insert_eq. simpl. now rewrite !lookup_insert_ne.
Qed.

Lemma add_handler_nodup reg c h :
  registry_nodup reg -> registry_nodup (add_handler c h reg).
Proof.
  intros Hreg c' hs' Hl.
  destruct (decide (c = c')) as [<-|Hne].
  - rewrite add_handler_lookup in Hl. injection Hl as <-. cbv zeta.
    assert (Hold : NoDup (default [] (reg !! c))).
    { destruct (reg !! c) as [hs|] eqn:Hc; simpl.
      - exact (Hreg c hs Hc).
      - constructor. }
    destruct (bool_decide (h ∈ default [] (reg !! c))) eqn:Hb.
    + exact Hold.
    + apply bool_decide_eq_false in Hb.
      apply NoDup_app. split; [exact Hold|]. split.
      * intros x Hx Hx'. apply list_elem_of_singleton in Hx'. subst x. auto.
      * apply NoDup_singleton.
  - rewrite add_handler_lookup_ne in Hl by assumption.
    exact (Hreg c' hs' Hl).
Qed.

Lemma foldl_add_handler_nodup (ops : list (Z * H)) reg :
  registry_nodup reg ->
  registry_nodup (foldl (fun r op => add_handler op.1 op.2 r) reg ops).
Proof.
  revert reg. induction ops as [|[c h] ops IH]; intros reg Hreg; simpl.
  - exact Hreg.
  - apply IH. apply add_handler_nodup. exact Hreg.
Qed.

Lemma init_nodup : registry_nodup (init (H := H)).
Proof. intros c hs Hl. unfold init in Hl. rewrite lookup_empty in Hl. discriminate. Qed.

(** C9: registering a callback that is already registered for a command
    code leaves the registry as it is (so that registering twice is the
    same as registering once), and no list of a registry built by
    registrations holds a callback twice. *)
Theorem add_handler_idempotent :
  (forall reg c h hs,
      reg !! c = Some hs -> h ∈ hs -> add_handler c h reg = reg) /\
  (forall reg c h,
      add_handler c h (add_handler c h reg) = add_handler c h reg) /\
  (forall (ops : list (Z * H)) c hs,
      registrations ops !! c = Some hs -> NoDup hs).
Proof.
  split; [|split].
  - exact add_handler_registered.
  - intros reg c h.
    eapply add_handler_registered; [apply add_handler_lookup|].
    cbv zeta. destruct (bool_decide (h ∈ default [] (reg !! c))) eqn:Hb.
    + apply bool_decide_eq_true in Hb. exact Hb.
    + apply elem_of_app. right. apply list_elem_of_singleton. reflexivity.
  - intros ops. unfold registrations.
    apply foldl_add_handler_nodup, init_nodup.
Qed.

End HandlerFacts.

Lemma add_handler_idempotent_witness :
  add_handler 0x22 7%nat (registrations [(0x22, 7%nat); (0x86, 9%nat); (0x22, 9%nat)]) =
    registrations [(0x22, 7%nat); (0x86, 9%nat); (0x22, 9%nat)] /\
  NoDup [7%nat; 9%nat].
Proof.
  destruct (add_handler_idempotent (H := nat)) as (Hreg & _ & Hnd).
  split.
  - apply (Hreg _ 0x22 7%nat [7%nat; 9%nat]).
    + vm_compute. reflexivity.
    + apply list_elem_of_here.
  - apply (Hnd [(0x22, 7%nat); (0x86, 9%nat); (0x22, 9%nat)] 0x22).
    vm_compute. reflexivity.
Defined.

(* ===================================================================== *)
(** ** Packing with [Z.lor] *)
(* ===================================================================== *)

Section PackingFacts.

(** Or-ing a value below [2^k] into a multiple of [2^k] adds it. *)
Lemma lor_disjoint_add (hi lo k : Z) :
  0 <= k -> 0 <= lo < 2 ^ k -> Z.lor (hi * 2 ^ k) lo = hi * 2 ^ k + lo.
Proof.
  intros Hk Hlo.
  assert (D : Z.land (hi * 2 ^ k) lo = 0).
  { apply Z.bits_inj'. intros n Hn.
    rewrite Z.land_spec, Z.bits_0.
    destruct (Z.lt_ge_cases n k) as [Hlt|Hge].
    - rewrite Z.mul_pow2_bits_low by assumption. reflexivity.
    - rewrite <- (Z.mod_small lo (2 ^ k)) by assumption.
      rewrite Z.mod_pow2_bits_high by lia. apply andb_false_r. }
  rewrite <- Z.lxor_lor by exact D.
  symmetry. apply Z.add_nocarry_lxor. exact D.
Qed.

Lemma lor_lt_pow2 (a b n : Z) :
  0 < n -> 0 <= a < 2 ^ n -> 0 <= b < 2 ^ n -> 0 <= Z.lor a b < 2 ^ n.
Proof.
  intros Hn Ha Hb.
  assert (Hnn : 0 <= Z.lor a b) by (apply Z.lor_nonneg; lia).
  split; [exact Hnn|].
  destruct (Z.eq_dec (Z.lor a b) 0) as [E|E]; [rewrite E; lia|].
  apply Z.log2_lt_pow2; [lia|].
  rewrite Z.log2_lor by lia.
  apply Z.max_lub_lt.
  - destruct (Z.eq_dec a 0) as [->|]; [simpl; lia|].
    apply Z.log2_lt_pow2; lia.
  - destruct (Z.eq_dec b 0) as [->|]; [simpl; lia|].
    apply Z.log2_lt_pow2; lia.
Qed.

Lemma lor_ge_pow2 (a b n : Z) :
  0 < n -> 0 <= a -> 2 ^ n <= b -> 2 ^ n <= Z.lor a b.
Proof.
  intros Hn Ha Hb.
  assert (0 < 2 ^ n) by (apply Z.pow_pos_nonneg; lia).
  assert (Hnn : 0 <= Z.lor a b) by (apply Z.lor_nonneg; lia).
  destruct (Z.lt_ge_cases (Z.lor a b) (2 ^ n)) as [Hlt|]; [|assumption].
  exfalso.
  assert (Hb' : Z.log2 b < n).
  { eapply Z.le_lt_trans; [apply (Z.le_max_r (Z.log2 a))|].
    rewrite <- Z.log2_lor by lia.
    destruct (Z.eq_dec (Z.lor a b) 0) as [E|E]; [rewrite E; simpl; lia|].
    apply Z.log2_lt_pow2; lia. }
  apply Z.log2_lt_pow2 in Hb'; lia.
Qed.

End PackingFacts.

(* ===================================================================== *)
(** ** The checksum *)
(* ===================================================================== *)

Section ChecksumFacts.

Lemma byte_sum_app (a b : bytearray) : byte_sum (a ++ b) = byte_sum a + byte_sum b.
Proof.
  induction a as [|x a IH]; simpl; [reflexivity|].
  unfold byte_sum in *. simpl. rewrite IH. lia.
Qed.

Lemma fold_left_byte_sum (bs : bytearray) (acc : Z) :
  fold_left (fun x y => x + byte_val y) bs acc = acc + byte_sum bs.
Proof.
  revert acc. induction bs as [|b bs IH]; intros acc; simpl.
  - unfold byte_sum. simpl. lia.
  - rewrite IH. unfold byte_sum. simpl. lia.
Qed.

Lemma reduce_add_sum (msg : bytearray) :
  msg <> [] -> reduce_add msg = Ok (byte_sum msg).
Proof.
  destruct msg as [|b bs]; [congruence|]. intros _. simpl.
  rewrite fold_left_byte_sum. reflexivity.
Qed.

Lemma update_checksum_snoc (body : bytearray) (last : byte) :
  _update_checksum (body ++ [last]) = Ok (body ++ [checksum_of body last]).
Proof.
  unfold _update_checksum.
  rewrite reduce_add_sum by (destruct body; discriminate).
  cbn [bind].
  rewrite setitem_last.
  - rewrite length_app. simpl length.
    replace (length body + 1 - 1)%nat with (length body + 0)%nat by lia.
    rewrite insert_app_r. simpl. unfold checksum_of.
    rewrite byte_sum_app. unfold byte_sum at 2. simpl.
    rewrite Z.add_0_r. reflexivity.
  - rewrite length_app. simpl. lia.
  - apply Z.mod_pos_bound. lia.
Qed.

(** After the update the bytes add up to 0 modulo 256. *)
Lemma checksum_sum_zero (body : bytearray) (last : byte) :
  byte_sum (body ++ [checksum_of body x00]) mod 256 = 0.
Proof.
  rewrite byte_sum_app. unfold byte_sum at 2. simpl.
  unfold checksum_of. rewrite byte_of_Z_val.
  change (byte_val x00) with 0.
  rewrite Z.mod_mod by lia.
  rewrite Z.add_0_r, Z.add_0_r.
  rewrite Zplus_mod_idemp_r.
  replace (byte_sum body + (256 - byte_sum body)) with (1 * 256) by lia.
  apply Z_mod_mult.
Qed.

End ChecksumFacts.

(* ===================================================================== *)
(** ** Hexadecimal printing and parsing *)
(* ===================================================================== *)

Section HexFacts.

(** Parsing the two upper-case digits of a byte gives the byte back. *)
Lemma fromhex_upper_byte (b : byte) (s : string) :
  fromhex (String (upper_char (hex_digit (byte_val b / 16)))
             (String (upper_char (hex_digit (byte_val b mod 16))) s)) =
    match fromhex s with
    | Ok rest => Ok (b :: rest)
    | Raise e => Raise e
    end.
Proof. destruct b; reflexivity. Qed.

Lemma fromhex_upper_hex (msg : bytearray) : fromhex (upper (hex msg)) = Ok msg.
Proof.
  induction msg as [|b msg IH]; [reflexivity|].
  cbn [hex upper]. rewrite fromhex_upper_byte, IH. reflexivity.
Qed.

Lemma length_upper_hex (msg : bytearray) :
  String.length (upper (hex msg)) = (2 * length msg)%nat.
Proof.
  induction msg as [|b msg IH]; [reflexivity|].
  cbn [hex upper String.length length]. rewrite IH. lia.
Qed.

End HexFacts.

(* ===================================================================== *)
(** ** The encoder: the assembled frame *)
(* ===================================================================== *)

Section EncodeFacts.
Implicit Types (self : MessageEncode.t) (addr : Addr.t) (data : bytearray).

Lemma as_byte_inv (v : Z) (b : byte) :
  as_byte v = Ok b -> 0 <= v < 256 /\ byte_val b = v.
Proof.
  intros E.
  assert (Hr : 0 <= v < 256).
  { destruct (Z.le_gt_cases 0 v); [destruct (Z.lt_ge_cases v 256)|]; try lia;
      rewrite as_byte_out_of_range in E by lia; discriminate. }
  split; [exact Hr|].
  rewrite as_byte_in_range in E by exact Hr. injection E as <-.
  rewrite byte_of_Z_val. apply Z.mod_small. exact Hr.
Qed.

Lemma as_byte_raise (v : Z) (e : exception) :
  as_byte v = Raise e -> e = ValueError /\ ~ 0 <= v < 256.
Proof.
  intros E. split.
  - unfold as_byte in E.
    destruct ((0 <=? v) && (v <? 256)); [|congruence].
    destruct (Byte.of_N (Z.to_N v)); congruence.
  - intros Hr. rewrite as_byte_in_range in E by exact Hr. discriminate.
Qed.

Lemma setitem_as_byte (msg : bytearray) (k : nat) (v : Z) (b : byte) :
  (k < length msg)%nat -> as_byte v = Ok b ->
  setitem msg (Z.of_nat k) v = Ok (<[k := b]> msg).
Proof.
  intros Hk Hv. unfold setitem. rewrite Hv. cbn [bind].
  rewrite index_nonneg by lia. cbn [bind]. now rewrite Nat2Z.id.
Qed.

Lemma setitem_raise (msg : bytearray) (i v : Z) (e : exception) :
  as_byte v = Raise e -> setitem msg i v = Raise e.
Proof. intros Hv. unfold setitem. rewrite Hv. reflexivity. Qed.

Lemma to_bytes_big_2 (n : Z) :
  0 <= n < 65536 ->
  to_bytes_big n 2 = Ok [byte_of_Z (Z.shiftr n 8); byte_of_Z n].
Proof.
  intros Hn. unfold to_bytes_big.
  destruct (Z.ltb_spec n 0); [lia|].
  change (2 ^ (8 * Z.of_nat 2)) with 65536.
  destruct (Z.leb_spec 65536 n); [lia|].
  reflexivity.
Qed.

Lemma to_bytes_big_2_overflow (n : Z) :
  ~ 0 <= n < 65536 -> to_bytes_big n 2 = Raise OverflowError.
Proof.
  intros Hn. unfold to_bytes_big.
  destruct (Z.ltb_spec n 0); [reflexivity|].
  change (2 ^ (8 * Z.of_nat 2)) with 65536.
  destruct (Z.leb_spec 65536 n); [reflexivity|lia].
Qed.

Lemma setslice_payload (header data : bytearray) :
  length header = 6%nat ->
  setslice (header ++ x00 :: replicate (length data) x00) 6 (length data + 6) data =
    header ++ data ++ [x00].
Proof.
  intros Hh. unfold setslice.
  replace (Nat.max 6 (length data + 6)) with (length header + length data)%nat by lia.
  rewrite <- Hh at 1. rewrite take_app_length.
  rewrite drop_app_add.
  change (x00 :: replicate (length data) x00) with (replicate (S (length data)) x00).
  rewrite drop_replicate.
  replace (S (length data) - length data)%nat with 1%nat by lia.
  reflexivity.
Qed.

(** A store of a value known to be a byte, at a position inside the
    array that the goal shows. *)
Ltac store_ok k E :=
  match goal with
  | |- context [setitem ?m ?i ?v] =>
      let H := fresh in
      assert (H : setitem m i v = Ok (<[k := _]> m))
        by (apply (setitem_as_byte m k v _); [simpl; lia | exact E]);
      rewrite H; clear H; cbn [bind]; simpl (<[k := _]> _)
  end.

(** [_encode_message_frame], step by step: the control word is
    serialised first, then the four header bytes are stored, then the
    payload is copied and the checksum written over the last byte. *)
Lemma encode_frame_eq self ctl addr (src_id msg_code : Z) data :
  _encode_message_frame self ctl addr src_id msg_code data =
    (control <- to_bytes_big (wire_control self ctl addr data) 2 ;;
     bn <- as_byte (Addr.network_id addr) ;;
     bd <- as_byte (Addr.upb_id addr) ;;
     bs <- as_byte src_id ;;
     bc <- as_byte msg_code ;;
     Ok ((control ++ [bn; bd; bs; bc] ++ data) ++
         [checksum_of (control ++ [bn; bd; bs; bc] ++ data) x00])).
Proof.
  unfold _encode_message_frame. cbv zeta. fold (wire_control self ctl addr data).
  set (wc := wire_control self ctl addr data).
  destruct (Z.le_gt_cases 0 wc) as [Hlo|Hlo];
    [destruct (Z.lt_ge_cases wc 65536) as [Hhi|Hhi]|];
    try (rewrite to_bytes_big_2_overflow by lia; reflexivity).
  rewrite to_bytes_big_2 by lia. cbn [bind].
  set (hi := byte_of_Z (Z.shiftr wc 8)). set (lo := byte_of_Z wc).
  unfold zeros, setslice. cbn [Nat.add replicate take drop Nat.max app].
  destruct (as_byte (Addr.network_id addr)) as [bn|e] eqn:En;
    [|rewrite (setitem_raise _ _ _ _ En); reflexivity].
  store_ok 2%nat En.
  destruct (as_byte (Addr.upb_id addr)) as [bd|e] eqn:Ed;
    [|rewrite (setitem_raise _ _ _ _ Ed); reflexivity].
  store_ok 3%nat Ed.
  destruct (as_byte src_id) as [bs|e] eqn:Es;
    [|rewrite (setitem_raise _ _ _ _ Es); reflexivity].
  store_ok 4%nat Es.
  destruct (as_byte msg_code) as [bc|e] eqn:Ec;
    [|rewrite (setitem_raise _ _ _ _ Ec); reflexivity].
  store_ok 5%nat Ec.
  assert (Hs : setslice ([hi; lo; bn; bd; bs; bc] ++ x00 :: replicate (length data) x00)
                 6 (length data + 6) data = [hi; lo; bn; bd; bs; bc] ++ data ++ [x00])
    by (apply setslice_payload; reflexivity).
  destruct data as [|d data'].
  - apply (update_checksum_snoc [hi; lo; bn; bd; bs; bc] x00).
  - match goal with
    | |- _update_checksum ?m = _ =>
        change m with
          (setslice ([hi; lo; bn; bd; bs; bc] ++
                     x00 :: replicate (length (d :: data')) x00)
             6 (length (d :: data') + 6) (d :: data'))
    end.
    rewrite Hs.
    apply (update_checksum_snoc (hi :: lo :: bn :: bd :: bs :: bc :: d :: data') x00).
Qed.

End EncodeFacts.

(* ===================================================================== *)
(** ** The encoder: length, checksum and round trip *)
(* ===================================================================== *)

Section EncodeMessageFacts.
Implicit Types (self : MessageEncode.t) (addr : Addr.t) (data : bytearray).

(** What a successful [_encode_message] has done. *)
Lemma encode_message_inv self ctl addr (src_id msg_code : Z) data (s : string) :
  _encode_message self ctl addr src_id msg_code data = Ok s ->
  exists hi lo bn bd bs bc,
    to_bytes_big (wire_control self ctl addr data) 2 = Ok [hi; lo] /\
    byte_val bn = Addr.network_id addr /\
    byte_val bd = Addr.upb_id addr /\
    byte_val bs = src_id /\
    byte_val bc = msg_code /\
    s = upper (hex ((hi :: lo :: bn :: bd :: bs :: bc :: data) ++
                    [checksum_of (hi :: lo :: bn :: bd :: bs :: bc :: data) x00])).
Proof.
  unfold _encode_message. rewrite encode_frame_eq.
  set (wc := wire_control self ctl addr data).
  destruct (Z.le_gt_cases 0 wc) as [Hlo|Hlo];
    [destruct (Z.lt_ge_cases wc 65536) as [Hhi|Hhi]|];
    try (rewrite to_bytes_big_2_overflow by lia; discriminate).
  rewrite to_bytes_big_2 by lia. cbn [bind].
  destruct (as_byte (Addr.network_id addr)) as [bn|] eqn:En; [|discriminate].
  destruct (as_byte (Addr.upb_id addr)) as [bd|] eqn:Ed; [|discriminate].
  destruct (as_byte src_id) as [bs|] eqn:Es; [|discriminate].
  destruct (as_byte msg_code) as [bc|] eqn:Ec; [|discriminate].
  cbn [bind app]. intros [= <-].
  exists (byte_of_Z (Z.shiftr wc 8)), (byte_of_Z wc), bn, bd, bs, bc.
  apply as_byte_inv in En, Ed, Es, Ec.
  repeat split; try tauto.
Qed.

(** When every field fits, [_encode_message] returns. *)
Lemma encode_message_ok self ctl addr (src_id msg_code : Z) data :
  0 <= wire_control self ctl addr data < 65536 ->
  0 <= Addr.network_id addr < 256 ->
  0 <= Addr.upb_id addr < 256 ->
  0 <= src_id < 256 ->
  0 <= msg_code < 256 ->
  exists frame,
    _encode_message self ctl addr src_id msg_code data = Ok (upper (hex frame)) /\
    length frame = (7 + length data)%nat.
Proof.
  intros Hwc Hn Hd Hs Hc.
  unfold _encode_message. rewrite encode_frame_eq.
  rewrite to_bytes_big_2 by exact Hwc. cbn [bind].
  rewrite !as_byte_in_range by assumption. cbn [bind].
  eexists. split; [reflexivity|].
  rewrite length_app. cbn [app length]. lia.
Qed.

Lemma wire_control_range self ctl addr data :
  0 <= (if ctl =? -1 then _create_control_word self addr 0 0 else ctl) < 65536 ->
  (7 + length data <= 255)%nat ->
  0 <= wire_control self ctl addr data < 65536.
Proof.
  intros Hc Hl. unfold wire_control.
  apply (lor_lt_pow2 _ _ 16); [lia|exact Hc|].
  rewrite Z.shiftl_mul_pow2 by lia. change (2 ^ 8) with 256.
  change (2 ^ 16) with 65536. lia.
Qed.

Lemma wire_control_overflow self ctl addr data :
  0 <= (if ctl =? -1 then _create_control_word self addr 0 0 else ctl) ->
  (256 <= 7 + length data)%nat ->
  65536 <= wire_control self ctl addr data.
Proof.
  intros Hc Hl. unfold wire_control.
  apply (lor_ge_pow2 _ _ 16); [lia|exact Hc|].
  rewrite Z.shiftl_mul_pow2 by lia. change (2 ^ 8) with 256.
  change (2 ^ 16) with 65536. lia.
Qed.

End EncodeMessageFacts.

(** A frame of total length 32 (25 payload bytes): [_encode_message]
    returns its hex string, it does not fail. *)
Lemma encode_message_length_32_succeeds :
  (7 + length (replicate 25 x00) = 32)%nat /\
  _encode_message one_transmit (-1) device_1_2 PIM_ID 0x22 (replicate 25 x00) =
    Ok "20000102FF2200000000000000000000000000000000000000000000000000BC"%string.
Proof. split; reflexivity. Qed.

(** C1 (amended): [_encode_message] has no check of the frame length.  With
    a control word in 0..65535 and network id, unit id, source id and command
    code in 0..255, it returns the upper-case hex string of a frame of
    7 + len(payload) bytes for every total length up to 255 (so for 31, and
    for 32 as well), and for a total length of 256 or more it raises
    [OverflowError], which only the two-byte serialisation of the control
    word raises, before the header is stored and the checksum computed. *)
Theorem encode_message_length_unchecked
    (self : MessageEncode.t) (ctl : Z) (addr : Addr.t) (src_id msg_code : Z)
    (data : bytearray) :
  0 <= (if ctl =? -1 then _create_control_word self addr 0 0 else ctl) < 65536 ->
  0 <= Addr.network_id addr < 256 ->
  0 <= Addr.upb_id addr < 256 ->
  0 <= src_id < 256 ->
  0 <= msg_code < 256 ->
  ((7 + length data <= 255)%nat ->
   exists frame,
     _encode_message self ctl addr src_id msg_code data = Ok (upper (hex frame)) /\
     length frame = (7 + length data)%nat /\
     String.length (upper (hex frame)) = (2 * (7 + length data))%nat) /\
  ((256 <= 7 + length data)%nat ->
   _encode_message self ctl addr src_id msg_code data = Raise OverflowError).
Proof.
  intros Hctl Hn Hd Hs Hc. split; intros Hl.
  - destruct (encode_message_ok self ctl addr src_id msg_code data) as (frame & E & L);
      try assumption.
    { apply wire_control_range; assumption. }
    exists frame. split; [exact E|]. split; [exact L|].
    rewrite length_upper_hex, L. reflexivity.
  - unfold _encode_message. rewrite encode_frame_eq.
    pose proof (wire_control_overflow self ctl addr data (proj1 Hctl) Hl).
    rewrite to_bytes_big_2_overflow by lia. reflexivity.
Qed.

Lemma encode_message_length_unchecked_witness :
  exists frame,
    _encode_message one_transmit (-1) device_1_2 PIM_ID 0x22 (replicate 24 x00) =
      Ok (upper (hex frame)) /\
    length frame = 31%nat /\
    String.length (upper (hex frame)) = 62%nat.
Proof.
  apply (encode_message_length_unchecked one_transmit (-1) device_1_2 PIM_ID 0x22
           (replicate 24 x00)); try (vm_compute; split; [discriminate|reflexivity]).
  vm_compute. lia.
Defined.

(** C3: the hex string returned by [_encode_message] is that of a frame
    whose bytes add up to 0 modulo 256, and whose last byte is
    (256 - sum of the bytes before it) mod 256. *)
Theorem encode_message_checksum
    (self : MessageEncode.t) (ctl : Z) (addr : Addr.t) (src_id msg_code : Z)
    (data : bytearray) (s : string) :
  _encode_message self ctl addr src_id msg_code data = Ok s ->
  exists body chk,
    s = upper (hex (body ++ [chk])) /\
    fromhex s = Ok (body ++ [chk]) /\
    byte_val chk = (256 - byte_sum body) mod 256 /\
    byte_sum (body ++ [chk]) mod 256 = 0.
Proof.
  intros E.
  destruct (encode_message_inv _ _ _ _ _ _ _ E)
    as (hi & lo & bn & bd & bs & bc & _ & _ & _ & _ & _ & ->).
  eexists _, _. split; [reflexivity|]. split; [apply fromhex_upper_hex|]. split.
  - unfold checksum_of. rewrite byte_of_Z_val.
    change (byte_val x00) with 0. rewrite Z.add_0_r.
    apply Z.mod_mod. lia.
  - apply checksum_sum_zero. exact x00.
Qed.

Lemma encode_message_checksum_witness :
  exists body chk,
    "09000102FF22320A97"%string = upper (hex (body ++ [chk])) /\
    fromhex "09000102FF22320A97" = Ok (body ++ [chk]) /\
    byte_val chk = (256 - byte_sum body) mod 256 /\
    byte_sum (body ++ [chk]) mod 256 = 0.
Proof.
  apply (encode_message_checksum one_transmit (-1) device_1_2 PIM_ID 0x22 [x32; x0a]).
  reflexivity.
Defined.

(** C8: when [_encode_message] returns, parsing its hex string and decoding
    the bytes gives back the network id, the destination (unit) id, the
    source id and the command code that were passed to the encoder; the
    decoded data is the payload followed by the checksum byte. *)
Theorem encode_decode_roundtrip
    (self : MessageEncode.t) (ctl : Z) (addr : Addr.t) (src_id msg_code : Z)
    (data : bytearray) (s : string) :
  _encode_message self ctl addr src_id msg_code data = Ok s ->
  exists frame m chk,
    fromhex s = Ok frame /\
    decode frame = Ok m /\
    Message.network_id m = Addr.network_id addr /\
    Message.dest_id m = Addr.upb_id addr /\
    Message.src_id m = src_id /\
    Message.msg_id m = msg_code /\
    Message.data m = data ++ [chk].
Proof.
  intros E.
  destruct (encode_message_inv _ _ _ _ _ _ _ E)
    as (hi & lo & bn & bd & bs & bc & _ & Hn & Hd & Hs & Hc & ->).
  eexists _, _, _. split; [apply fromhex_upper_hex|].
  cbn [app]. rewrite decode_header. cbn.
  repeat split; assumption.
Qed.

Lemma encode_decode_roundtrip_witness :
  exists frame m chk,
    fromhex "09000102FF22320A97" = Ok frame /\
    decode frame = Ok m /\
    Message.network_id m = 1 /\
    Message.dest_id m = 2 /\
    Message.src_id m = 0xFF /\
    Message.msg_id m = 0x22 /\
    Message.data m = [x32; x0a] ++ [chk].
Proof.
  apply (encode_decode_roundtrip one_transmit (-1) device_1_2 PIM_ID 0x22 [x32; x0a]).
  reflexivity.
Defined.

(* ===================================================================== *)
(** ** The control word *)
(* ===================================================================== *)

Section ControlWordFacts.
Implicit Types (self : MessageEncode.t) (addr : Addr.t).

(** With every field inside its bit range the or-ed fields add up. *)
Lemma create_control_word_sum self addr (repeater ack : Z) :
  0 <= repeater <= 3 ->
  0 <= ack <= 15 ->
  1 <= get_tx_count self (Addr.network_id addr) (Addr.upb_id addr) <= 4 ->
  _create_control_word self addr repeater ack =
    (if Addr.is_link addr then 1 else 0) * 32768 + repeater * 8192 + ack * 16 +
    (get_tx_count self (Addr.network_id addr) (Addr.upb_id addr) - 1) * 4.
Proof.
  intros Hr Ha Ht. unfold _create_control_word.
  set (l := if Addr.is_link addr then 1 else 0).
  set (t := get_tx_count self (Addr.network_id addr) (Addr.upb_id addr) - 1).
  assert (Hl : 0 <= l <= 1) by (subst l; destruct (Addr.is_link addr); lia).
  rewrite !Z.shiftl_mul_pow2 by lia.
  change (2 ^ 15) with 32768. change (2 ^ 13) with 8192.
  change (2 ^ 4) with 16. change (2 ^ 2) with 4.
  assert (E1 : Z.lor (l * 32768) (repeater * 8192) = l * 32768 + repeater * 8192).
  { apply (lor_disjoint_add l (repeater * 8192) 15); [lia|].
    change (2 ^ 15) with 32768. lia. }
  rewrite E1.
  assert (E2 : Z.lor (l * 32768 + repeater * 8192) (ack * 16) =
               l * 32768 + repeater * 8192 + ack * 16).
  { replace (l * 32768 + repeater * 8192) with ((l * 4 + repeater) * 8192) by lia.
    apply (lor_disjoint_add (l * 4 + repeater) (ack * 16) 13); [lia|].
    change (2 ^ 13) with 8192. lia. }
  rewrite E2.
  replace (l * 32768 + repeater * 8192 + ack * 16)
    with ((l * 2048 + repeater * 512 + ack) * 16) by lia.
  apply (lor_disjoint_add (l * 2048 + repeater * 512 + ack) (t * 4) 4); [lia|].
  change (2 ^ 4) with 16. subst t. lia.
Qed.

Lemma testbit_div_mod (x k : Z) (b : bool) :
  0 <= k -> (x / 2 ^ k) mod 2 = (if b then 1 else 0) -> Z.testbit x k = b.
Proof.
  intros Hk E. destruct b.
  - apply Z.testbit_true; assumption.
  - apply Z.testbit_false; assumption.
Qed.

End ControlWordFacts.

(** Outside its two bits the repeater request runs into the link bit. *)
Example create_control_word_repeater_4 :
  _create_control_word one_transmit device_1_2 4 0 = 0x8000.
Proof. reflexivity. Qed.

(** C4: for a repeater request in 0..3, an acknowledgement request in 0..15
    and a declared transmit count in 1..4, [_create_control_word] returns a
    16-bit word with bit 15 = is_link, bits 14-13 = the repeater request,
    bits 12-8 = 0 (the length comes later), bits 7-4 = the acknowledgement
    request, bits 3-2 = the transmit count minus one and bits 1-0 = 0. *)
Theorem create_control_word_fields
    (self : MessageEncode.t) (addr : Addr.t) (repeater ack w : Z) :
  0 <= repeater <= 3 ->
  0 <= ack <= 15 ->
  1 <= get_tx_count self (Addr.network_id addr) (Addr.upb_id addr) <= 4 ->
  w = _create_control_word self addr repeater ack ->
  0 <= w < 65536 /\
  Z.testbit w 15 = Addr.is_link addr /\
  bits w 14 13 = repeater /\
  bits w 12 8 = 0 /\
  bits w 7 4 = ack /\
  bits w 3 2 = get_tx_count self (Addr.network_id addr) (Addr.upb_id addr) - 1 /\
  bits w 1 0 = 0.
Proof.
  intros Hr Ha Ht ->. rewrite create_control_word_sum by assumption.
  set (t := get_tx_count self (Addr.network_id addr) (Addr.upb_id addr)) in *.
  split; [destruct (Addr.is_link addr); lia|].
  split.
  { apply testbit_div_mod; [lia|]. change (2 ^ 15) with 32768.
    destruct (Addr.is_link addr); Z.div_mod_to_equations; lia. }
  unfold bits. simpl Z.sub. simpl Z.add.
  change (2 ^ 13) with 8192. change (2 ^ 8) with 256. change (2 ^ 5) with 32.
  change (2 ^ 4) with 16. change (2 ^ 2) with 4. change (2 ^ 0) with 1.
  destruct (Addr.is_link addr); repeat split; Z.div_mod_to_equations; lia.
Qed.

(** link = true, repeater 2, acknowledgement 5, three declared transmits:
    the word is 0xC058 = 1 10 00000 0101 10 00. *)
Lemma create_control_word_fields_witness :
  0 <= 0xC058 < 65536 /\
  Z.testbit 0xC058 15 = true /\
  bits 0xC058 14 13 = 2 /\
  bits 0xC058 12 8 = 0 /\
  bits 0xC058 7 4 = 5 /\
  bits 0xC058 3 2 = 3 - 1 /\
  bits 0xC058 1 0 = 0.
Proof.
  apply (create_control_word_fields three_transmits link_1_9 2 5 0xC058);
    try (simpl; lia).
  reflexivity.
Defined.

(* ===================================================================== *)
(** ** The level/rate payload of goto and fade_start *)
(* ===================================================================== *)

Section CommonPayloadFacts.

Lemma as_byte_cases (v : Z) :
  (exists b, as_byte v = Ok b) \/ as_byte v = Raise ValueError.
Proof.
  destruct (as_byte v) as [b|e] eqn:E; [left; eauto|right].
  apply as_byte_raise in E as [-> _]. reflexivity.
Qed.

(** The bytes that [_encode_common] builds are the bytes of the
    specified payload, and a value that is not a byte is a [ValueError]
    on either side. *)
Lemma encode_common_args_eq (addr : Addr.t) (level rate : Z) :
  _encode_common_args addr level rate =
    bytearray_of (level_rate_payload addr level rate).
Proof.
  unfold _encode_common_args, level_rate_payload, append.
  destruct (Addr.is_device addr && Addr.multi_channel addr);
    [|destruct (negb (rate =? -1))];
    cbn [bytearray_of bind];
    repeat match goal with
      | |- context [as_byte ?v] =>
          destruct (as_byte_cases v) as [[? ->]| ->]; cbn [bind]
      end;
    reflexivity.
Qed.

End CommonPayloadFacts.

(** C7: [goto] and [fade_start] send, through [_encode_message] with the
    PIM as source, the payload [level; 0xFF if rate = -1 else rate;
    channel + 1] for a multi-channel device, [level; rate] otherwise when
    rate is not -1, and [level] alone otherwise.  A multi-channel device
    with channel 2, level 50 and rate -1 gives the bytes 50, 0xFF, 3; a
    single-channel address with level 50 and rate 10 gives 50, 10. *)
Theorem goto_fade_start_payload :
  (forall (table : UpbCommand.table) (self : MessageEncode.t) (addr : Addr.t)
          (level rate ctl : Z),
      goto table self addr level rate ctl =
        (args <- bytearray_of (level_rate_payload addr level rate) ;;
         _encode_message self ctl addr PIM_ID (UpbCommand.GOTO table) args) /\
      fade_start table self addr level rate ctl =
        (args <- bytearray_of (level_rate_payload addr level rate) ;;
         _encode_message self ctl addr PIM_ID (UpbCommand.FADE_START table) args)) /\
  (forall (addr : Addr.t) (level rate : Z),
      level_rate_payload addr level rate =
        if Addr.is_device addr && Addr.multi_channel addr then
          [level; if rate =? -1 then 0xFF else rate; Addr.channel addr + 1]
        else if rate =? -1 then [level]
        else [level; rate]) /\
  (forall (network_id upb_id : Z) (is_link : bool),
      _encode_common_args (Addr.mk network_id upb_id 2 true is_link true) 50 (-1) =
        Ok [x32; xff; x03]) /\
  (forall (network_id upb_id channel : Z) (is_link is_device : bool),
      _encode_common_args (Addr.mk network_id upb_id channel false is_link is_device) 50 10 =
        Ok [x32; x0a]).
Proof.
  split; [|split; [|split]].
  - intros table self addr level rate ctl.
    unfold goto, fade_start, _encode_common.
    rewrite encode_common_args_eq. split; reflexivity.
  - intros addr level rate. unfold level_rate_payload.
    destruct (Addr.is_device addr && Addr.multi_channel addr); [reflexivity|].
    destruct (rate =? -1); reflexivity.
  - intros network_id upb_id is_link. reflexivity.
  - intros network_id upb_id channel is_link is_device.
    rewrite encode_common_args_eq. unfold level_rate_payload. cbn [Addr.is_device Addr.multi_channel].
    rewrite andb_false_r. reflexivity.
Qed.

(* ===================================================================== *)
(** ** increment_tx_count *)
(* ===================================================================== *)

Section IncrementFacts.

Lemma tx_count_bits (c : Z) : Z.land (Z.shiftr c 2) 3 = bits c 3 2.
Proof. apply (land_shiftr_ones c 2 2); lia. Qed.

(** The bumped byte, for a field below its maximum: still a byte, the
    field is one more, the neighbouring fields are as they were. *)
Lemma bumped_spec (b : byte) :
  bits (byte_val b) 3 2 < 3 ->
  0 <= bumped b < 256 /\
  bits (bumped b) 3 2 = bits (byte_val b) 3 2 + 1 /\
  bits (bumped b) 7 4 = bits (byte_val b) 7 4 /\
  bits (bumped b) 1 0 = bits (byte_val b) 1 0.
Proof.
  destruct b; vm_compute; intros H;
    try discriminate H; repeat split; intros; discriminate.
Qed.

Lemma testbit_byte_high (x k : Z) : 0 <= x < 256 -> 8 <= k -> Z.testbit x k = false.
Proof.
  intros Hx Hk. rewrite <- (Z.mod_small x (2 ^ 8)) by (change (2 ^ 8) with 256; lia).
  apply Z.mod_pow2_bits_high. lia.
Qed.

(** Bit by bit: only bits 2 and 3 change. *)
Lemma bumped_testbit (b : byte) (k : Z) :
  bits (byte_val b) 3 2 < 3 ->
  k <> 2 -> k <> 3 -> Z.testbit (bumped b) k = Z.testbit (byte_val b) k.
Proof.
  intros Ht H2 H3.
  destruct (Z.lt_ge_cases k 0) as [Hneg|Hk].
  { now rewrite !Z.testbit_neg_r by assumption. }
  destruct (Z.lt_ge_cases k 8) as [Hlt|Hge].
  - assert (Hc : k = 0 \/ k = 1 \/ k = 4 \/ k = 5 \/ k = 6 \/ k = 7) by lia.
    clear H2 H3 Hk Hlt. revert Ht.
    destruct Hc as [->|[->|[->|[->|[->| ->]]]]];
      destruct b; vm_compute; intros Ht; try reflexivity; discriminate Ht.
  - rewrite !testbit_byte_high; try assumption; try reflexivity.
    + apply byte_val_range.
    + apply bumped_spec. exact Ht.
Qed.

End IncrementFacts.

Section IncrementSteps.

Lemma getitem_1 (b0 b1 : byte) (rest : bytearray) :
  getitem (b0 :: b1 :: rest) 1 = Ok (byte_val b1).
Proof. exact (getitem_lookup (b0 :: b1 :: rest) 1 b1 eq_refl). Qed.

Lemma setitem_1 (b0 b1 : byte) (rest : bytearray) (v : Z) :
  0 <= v < 256 ->
  setitem (b0 :: b1 :: rest) 1 v = Ok (b0 :: byte_of_Z v :: rest).
Proof.
  intros Hv.
  exact (setitem_in_range (b0 :: b1 :: rest) 1 v ltac:(simpl; lia) Hv).
Qed.

Lemma setitem_last_snoc (body : bytearray) (last : byte) (v : Z) :
  0 <= v < 256 -> setitem (body ++ [last]) (-1) v = Ok (body ++ [byte_of_Z v]).
Proof.
  intros Hv. rewrite setitem_last.
  - rewrite length_app. simpl length.
    replace (length body + 1 - 1)%nat with (length body + 0)%nat by lia.
    rewrite insert_app_r. reflexivity.
  - rewrite length_app. simpl. lia.
  - exact Hv.
Qed.

(** A frame of at least three bytes: two leading bytes, a middle part
    and a last byte. *)
Lemma frame_split (msg : bytearray) :
  (3 <= length msg)%nat ->
  exists b0 b1 mid last, msg = b0 :: b1 :: mid ++ [last].
Proof.
  intros Hl. destruct msg as [|b0 [|b1 rest]]; simpl in Hl; try lia.
  induction rest as [|x rest' _] using rev_ind; [simpl in Hl; lia|].
  exists b0, b1, rest', x. reflexivity.
Qed.

(** At the maximum the input string itself is returned. *)
Lemma increment_saturated (h : string) :
  tx_count_field h = Ok 3 -> increment_tx_count h = Ok h.
Proof.
  unfold tx_count_field, increment_tx_count.
  destruct (fromhex h) as [msg|]; [|discriminate]. cbn [bind].
  destruct (getitem msg 1) as [c|]; [|discriminate]. cbn [bind].
  intros [= Hc]. rewrite tx_count_bits, Hc. reflexivity.
Qed.

(** Below the maximum: byte 1 is replaced by the bumped byte, the last
    byte by the checksum of what precedes it. *)
Lemma increment_bump (h : string) (b0 b1 : byte) (mid : bytearray) (last : byte) :
  fromhex h = Ok (b0 :: b1 :: mid ++ [last]) ->
  bits (byte_val b1) 3 2 < 3 ->
  increment_tx_count h =
    Ok (upper (hex ((b0 :: byte_of_Z (bumped b1) :: mid) ++
                    [checksum_of (b0 :: byte_of_Z (bumped b1) :: mid) x00]))).
Proof.
  intros Hf Ht. unfold increment_tx_count. rewrite Hf. cbn [bind].
  rewrite getitem_1. cbn [bind]. cbv zeta.
  destruct (Z.eqb_spec (Z.land (Z.shiftr (byte_val b1) 2) 3) 3) as [E|_].
  { rewrite tx_count_bits in E. lia. }
  fold (bumped b1).
  rewrite setitem_1 by (apply bumped_spec; exact Ht). cbn [bind].
  change (b0 :: byte_of_Z (bumped b1) :: mid ++ [last])
    with ((b0 :: byte_of_Z (bumped b1) :: mid) ++ [last]).
  rewrite setitem_last_snoc by lia. cbn [bind].
  change (byte_of_Z 0) with x00.
  rewrite update_checksum_snoc. reflexivity.
Qed.

Lemma tx_count_field_frame (h : string) (b0 b1 : byte) (rest : bytearray) :
  fromhex h = Ok (b0 :: b1 :: rest) ->
  tx_count_field h = Ok (bits (byte_val b1) 3 2).
Proof.
  intros Hf. unfold tx_count_field. rewrite Hf. cbn [bind].
  rewrite getitem_1. reflexivity.
Qed.

(** One bump of a frame whose field is below 3. *)
Lemma increment_step (h : string) (msg : bytearray) (t : Z) :
  fromhex h = Ok msg ->
  (3 <= length msg)%nat ->
  tx_count_field h = Ok t ->
  t < 3 ->
  exists h' msg',
    increment_tx_count h = Ok h' /\
    fromhex h' = Ok msg' /\
    length msg' = length msg /\
    tx_count_field h' = Ok (t + 1).
Proof.
  intros Hf Hl Hfield Ht.
  destruct (frame_split msg Hl) as (b0 & b1 & mid & last & ->).
  rewrite (tx_count_field_frame h b0 b1 _ Hf) in Hfield. injection Hfield as <-.
  eexists _, _.
  split; [apply (increment_bump h b0 b1 mid last Hf Ht)|].
  split; [apply fromhex_upper_hex|].
  split.
  - cbn [app length]. rewrite !length_app. reflexivity.
  - cbn [app]. erewrite tx_count_field_frame by apply fromhex_upper_hex.
    destruct (bumped_spec b1 Ht) as (Hr & Hb & _).
    rewrite byte_of_Z_val, Z.mod_small by exact Hr. now rewrite Hb.
Qed.

End IncrementSteps.

(** On two bytes the byte at index 1 is also the last one: the bumped
    value is overwritten by the checksum. *)
Example increment_tx_count_two_bytes :
  increment_tx_count "0000" = Ok "0000"%string /\ tx_count_field "0000" = Ok 0.
Proof. split; reflexivity. Qed.

(** C5: [increment_tx_count] saturates.  On a hex frame whose tx-count
    field is 3 it returns the input string; four successive calls on a frame
    whose field is 0 return frames whose fields are 1, 2, 3 and 3. *)
Theorem increment_tx_count_saturates :
  (forall h : string, tx_count_field h = Ok 3 -> increment_tx_count h = Ok h) /\
  (forall (h0 : string) (msg : bytearray),
      fromhex h0 = Ok msg ->
      (3 <= length msg)%nat ->
      tx_count_field h0 = Ok 0 ->
      exists h1 h2 h3 h4,
        increment_tx_count h0 = Ok h1 /\
        increment_tx_count h1 = Ok h2 /\
        increment_tx_count h2 = Ok h3 /\
        increment_tx_count h3 = Ok h4 /\
        tx_count_field h1 = Ok 1 /\
        tx_count_field h2 = Ok 2 /\
        tx_count_field h3 = Ok 3 /\
        tx_count_field h4 = Ok 3 /\
        h4 = h3).
Proof.
  split; [exact increment_saturated|].
  intros h0 msg Hf Hl H0.
  destruct (increment_step h0 msg 0 Hf Hl H0 ltac:(lia)) as (h1 & m1 & I1 & F1 & L1 & T1).
  rewrite <- L1 in Hl.
  destruct (increment_step h1 m1 1 F1 Hl T1 ltac:(lia)) as (h2 & m2 & I2 & F2 & L2 & T2).
  rewrite <- L2 in Hl.
  destruct (increment_step h2 m2 2 F2 Hl T2 ltac:(lia)) as (h3 & m3 & I3 & F3 & L3 & T3).
  exists h1, h2, h3, h3.
  repeat split; try assumption.
  apply increment_saturated. exact T3.
Qed.

Lemma increment_tx_count_saturates_witness :
  increment_tx_count "090C0102FF22320A8B" = Ok "090C0102FF22320A8B"%string /\
  exists h1 h2 h3 h4,
    increment_tx_count "09000102FF22320A97" = Ok h1 /\
    increment_tx_count h1 = Ok h2 /\
    increment_tx_count h2 = Ok h3 /\
    increment_tx_count h3 = Ok h4 /\
    tx_count_field h1 = Ok 1 /\
    tx_count_field h2 = Ok 2 /\
    tx_count_field h3 = Ok 3 /\
    tx_count_field h4 = Ok 3 /\
    h4 = h3.
Proof.
  destruct increment_tx_count_saturates as [Hsat Hrun].
  split.
  - apply Hsat. reflexivity.
  - apply (Hrun "09000102FF22320A97"%string
             [x09; x00; x01; x02; xff; x22; x32; x0a; x97]).
    + reflexivity.
    + simpl. lia.
    + reflexivity.
Defined.

(** C10: on a hex frame of at least three bytes whose tx-count field is
    below 3, [increment_tx_count] returns the hex string of a frame of the
    same length that differs from the input only at byte 1 and at the last
    byte: in byte 1 the field 3-2 is one more and every other bit (the tx
    sequence bits 1-0 and the bits 7-4 among them) is as before; the bytes of
    the returned frame add up to 0 modulo 256, whatever the checksum of the
    input was. *)
Theorem increment_tx_count_frame
    (h : string) (msg : bytearray) (t : Z) :
  fromhex h = Ok msg ->
  (3 <= length msg)%nat ->
  tx_count_field h = Ok t ->
  t < 3 ->
  exists (msg' : bytearray) (c c' : byte),
    increment_tx_count h = Ok (upper (hex msg')) /\
    fromhex (upper (hex msg')) = Ok msg' /\
    length msg' = length msg /\
    (forall i : nat, i <> 1%nat -> i <> (length msg - 1)%nat -> msg' !! i = msg !! i) /\
    msg !! 1%nat = Some c /\
    msg' !! 1%nat = Some c' /\
    bits (byte_val c') 3 2 = t + 1 /\
    bits (byte_val c') 7 4 = bits (byte_val c) 7 4 /\
    bits (byte_val c') 1 0 = bits (byte_val c) 1 0 /\
    (forall k : Z, k <> 2 -> k <> 3 ->
       Z.testbit (byte_val c') k = Z.testbit (byte_val c) k) /\
    byte_sum msg' mod 256 = 0.
Proof.
  intros Hf Hl Hfield Ht.
  destruct (frame_split msg Hl) as (b0 & b1 & mid & last & ->).
  rewrite (tx_count_field_frame h b0 b1 _ Hf) in Hfield. injection Hfield as <-.
  destruct (bumped_spec b1 Ht) as (Hr & Hb & Hhi & Hlo).
  assert (Hv : byte_val (byte_of_Z (bumped b1)) = bumped b1)
    by (rewrite byte_of_Z_val; apply Z.mod_small; exact Hr).
  exists ((b0 :: byte_of_Z (bumped b1) :: mid) ++
          [checksum_of (b0 :: byte_of_Z (bumped b1) :: mid) x00]),
         b1, (byte_of_Z (bumped b1)).
  split; [apply (increment_bump h b0 b1 mid last Hf Ht)|].
  split; [apply fromhex_upper_hex|].
  split; [cbn [app length]; rewrite !length_app; reflexivity|].
  split.
  { intros i Hi1 Hilast. cbn [app length] in *.
    rewrite length_app in Hilast. cbn [length] in Hilast.
    destruct i as [|[|j]]; [reflexivity|congruence|].
    change ((mid ++ [checksum_of (b0 :: byte_of_Z (bumped b1) :: mid) x00]) !! j =
            (mid ++ [last]) !! j).
    destruct (Nat.lt_ge_cases j (length mid)) as [Hj|Hj].
    - rewrite !lookup_app_l by assumption. reflexivity.
    - rewrite !lookup_ge_None_2; [reflexivity| |];
        rewrite length_app; cbn [length]; lia. }
  split; [reflexivity|]. split; [reflexivity|].
  rewrite Hv.
  split; [exact Hb|]. split; [exact Hhi|]. split; [exact Hlo|].
  split; [intros k H2 H3; apply bumped_testbit; assumption|].
  apply checksum_sum_zero. exact x00.
Qed.

Lemma increment_tx_count_frame_witness :
  exists (msg' : bytearray) (c c' : byte),
    increment_tx_count "09040102FF22320A00" = Ok (upper (hex msg')) /\
    fromhex (upper (hex msg')) = Ok msg' /\
    length msg' = length [x09; x04; x01; x02; xff; x22; x32; x0a; x00] /\
    (forall i : nat,
        i <> 1%nat ->
        i <> (length [x09; x04; x01; x02; xff; x22; x32; x0a; x00] - 1)%nat ->
        msg' !! i = [x09; x04; x01; x02; xff; x22; x32; x0a; x00] !! i) /\
    [x09; x04; x01; x02; xff; x22; x32; x0a; x00] !! 1%nat = Some c /\
    msg' !! 1%nat = Some c' /\
    bits (byte_val c') 3 2 = 1 + 1 /\
    bits (byte_val c') 7 4 = bits (byte_val c) 7 4 /\
    bits (byte_val c') 1 0 = bits (byte_val c) 1 0 /\
    (forall k : Z, k <> 2 -> k <> 3 ->
       Z.testbit (byte_val c') k = Z.testbit (byte_val c) k) /\
    byte_sum msg' mod 256 = 0.
Proof.
  apply (increment_tx_count_frame "09040102FF22320A00"
           [x09; x04; x01; x02; xff; x22; x32; x0a; x00] 1).
  - reflexivity.
  - simpl. lia.
  - reflexivity.
  - lia.
Defined.

(* ===================================================================== *)
(** ** Further properties of the decoder and its registry *)
(* ===================================================================== *)

Section DecodeRangeFacts.

Lemma land_ones_range (x n : Z) : 0 <= n -> 0 <= Z.land x (Z.ones n) < 2 ^ n.
Proof.
  intros Hn. rewrite Z.land_ones by assumption.
  apply Z.mod_pos_bound. apply Z.pow_pos_nonneg; lia.
Qed.

(** A field of the low byte of the control word does not depend on the
    high byte. *)
Lemma bits_low_byte (b0 b1 : byte) (hi lo : Z) :
  0 <= lo <= hi -> hi <= 7 ->
  bits (256 * byte_val b0 + byte_val b1) hi lo = bits (byte_val b1) hi lo.
Proof.
  intros Hlo Hhi. unfold bits.
  replace 256 with (2 ^ (7 - hi) * 2 ^ (hi - lo + 1) * 2 ^ lo).
  2:{ rewrite <- !Z.pow_add_r by lia. replace (7 - hi + (hi - lo + 1) + lo) with 8 by lia.
      reflexivity. }
  assert (0 < 2 ^ lo) by (apply Z.pow_pos_nonneg; lia).
  assert (0 < 2 ^ (hi - lo + 1)) by (apply Z.pow_pos_nonneg; lia).
  replace (2 ^ (7 - hi) * 2 ^ (hi - lo + 1) * 2 ^ lo * byte_val b0 + byte_val b1)
    with (byte_val b1 + (2 ^ (7 - hi) * 2 ^ (hi - lo + 1) * byte_val b0) * 2 ^ lo) by lia.
  rewrite Z.div_add by lia.
  replace (2 ^ (7 - hi) * 2 ^ (hi - lo + 1) * byte_val b0)
    with ((2 ^ (7 - hi) * byte_val b0) * 2 ^ (hi - lo + 1)) by lia.
  apply Z.mod_add. lia.
Qed.

Lemma decode_ok_inv (msg : bytearray) (m : Message.t) :
  decode msg = Ok m ->
  exists b0 b1 b2 b3 b4 b5 rest, msg = b0 :: b1 :: b2 :: b3 :: b4 :: b5 :: rest.
Proof.
  intros E.
  destruct msg as [|b0 [|b1 [|b2 [|b3 [|b4 [|b5 rest]]]]]];
    try (rewrite decode_short in E by (simpl; lia); discriminate).
  eauto 8.
Qed.

End DecodeRangeFacts.

(** X1: every message that [decode] returns has its fields inside the
    ranges of their masks (repeater_req 0..3, length 0..31, ack_req 0..7,
    tx_count 0..3, tx_seq 0..3), its four identifiers inside 0..255, and as
    data the input without its first six bytes. *)
Theorem decode_field_ranges (msg : bytearray) (m : Message.t) :
  decode msg = Ok m ->
  0 <= Message.repeater_req m <= 3 /\
  0 <= Message.length m <= 31 /\
  0 <= Message.ack_req m <= 7 /\
  0 <= Message.tx_count m <= 3 /\
  0 <= Message.tx_seq m <= 3 /\
  0 <= Message.network_id m <= 255 /\
  0 <= Message.dest_id m <= 255 /\
  0 <= Message.src_id m <= 255 /\
  0 <= Message.msg_id m <= 255 /\
  Message.data m = drop 6 msg /\
  (length (Message.data m) + 6 = length msg)%nat.
Proof.
  intros E.
  destruct (decode_ok_inv msg m E) as (b0 & b1 & b2 & b3 & b4 & b5 & rest & ->).
  rewrite decode_header in E. injection E as <-. cbn.
  set (control := 256 * byte_val b0 + byte_val b1).
  pose proof (land_ones_range (Z.shiftr control 13) 2 ltac:(lia)) as H1.
  pose proof (land_ones_range (Z.shiftr control 8) 5 ltac:(lia)) as H2.
  pose proof (land_ones_range (Z.shiftr control 4) 3 ltac:(lia)) as H3.
  pose proof (land_ones_range (Z.shiftr control 2) 2 ltac:(lia)) as H4.
  pose proof (land_ones_range control 2 ltac:(lia)) as H5.
  change (Z.ones 2) with 3 in *. change (Z.ones 5) with 31 in *.
  change (Z.ones 3) with 7 in *.
  change (2 ^ 2) with 4 in *. change (2 ^ 5) with 32 in *. change (2 ^ 3) with 8 in *.
  pose proof (byte_val_range b2). pose proof (byte_val_range b3).
  pose proof (byte_val_range b4). pose proof (byte_val_range b5).
  repeat split; lia.
Qed.

Lemma decode_field_ranges_witness :
  exists m,
    decode [xc9; xff; x01; x0c; xff; x22; x32] = Ok m /\
    0 <= Message.repeater_req m <= 3 /\
    0 <= Message.length m <= 31 /\
    0 <= Message.ack_req m <= 7 /\
    0 <= Message.tx_count m <= 3 /\
    0 <= Message.tx_seq m <= 3 /\
    0 <= Message.network_id m <= 255 /\
    0 <= Message.dest_id m <= 255 /\
    0 <= Message.src_id m <= 255 /\
    0 <= Message.msg_id m <= 255 /\
    Message.data m = drop 6 [xc9; xff; x01; x0c; xff; x22; x32] /\
    (length (Message.data m) + 6 = length [xc9; xff; x01; x0c; xff; x22; x32])%nat.
Proof.
  eexists. split; [reflexivity|].
  apply (decode_field_ranges [xc9; xff; x01; x0c; xff; x22; x32]). reflexivity.
Defined.

Section DispatchFacts.
Context {H : Type} `{EqDecision H}.
Implicit Types (reg : gmap Z (list H)) (c : Z) (h : H).

Lemma call_handlers_add_handler reg c c' h :
  call_handlers c' (add_handler c h reg) =
    if decide (c = c') then
      if bool_decide (h ∈ call_handlers c reg) then call_handlers c reg
      else call_handlers c reg ++ [h]
    else call_handlers c' reg.
Proof.
  unfold call_handlers. destruct (decide (c = c')) as [<-|Hne].
  - rewrite add_handler_lookup. reflexivity.
  - rewrite add_handler_lookup_ne by assumption. reflexivity.
Qed.

Lemma keep_first_snoc (l : list H) h :
  keep_first (l ++ [h]) = if bool_decide (h ∈ keep_first l) then keep_first l
                          else keep_first l ++ [h].
Proof.
  unfold keep_first. rewrite reverse_snoc. cbn [remove_dups].
  destruct (decide_rel elem_of h (reverse l)) as [Hin|Hnin].
  - rewrite bool_decide_eq_true_2; [reflexivity|].
    rewrite elem_of_reverse, elem_of_remove_dups. exact Hin.
  - rewrite bool_decide_eq_false_2.
    + rewrite reverse_cons. reflexivity.
    + rewrite elem_of_reverse, elem_of_remove_dups. exact Hnin.
Qed.

Lemma elem_of_keep_first (l : list H) h : h ∈ keep_first l <-> h ∈ l.
Proof.
  unfold keep_first.
  rewrite elem_of_reverse, elem_of_remove_dups, elem_of_reverse. reflexivity.
Qed.

Lemma registrations_snoc (ops : list (Z * H)) (op : Z * H) :
  registrations (ops ++ [op]) = add_handler op.1 op.2 (registrations ops).
Proof. unfold registrations. rewrite foldl_app. reflexivity. Qed.

Lemma registered_for_snoc c (ops : list (Z * H)) (op : Z * H) :
  registered_for c (ops ++ [op]) =
    if decide (op.1 = c) then registered_for c ops ++ [op.2] else registered_for c ops.
Proof.
  unfold registered_for. rewrite filter_app, fmap_app.
  rewrite filter_cons, filter_nil.
  destruct (decide (op.1 = c)); cbn [fmap list_fmap]; [reflexivity|].
  apply app_nil_r.
Qed.

Lemma call_handlers_registrations c (ops : list (Z * H)) :
  call_handlers c (registrations ops) = keep_first (registered_for c ops).
Proof.
  induction ops as [|[c' h] ops IH] using rev_ind.
  - reflexivity.
  - rewrite registrations_snoc, registered_for_snoc, call_handlers_add_handler.
    cbn [fst snd].
    destruct (decide (c' = c)) as [->|Hne]; [|exact IH].
    rewrite keep_first_snoc, IH. reflexivity.
Qed.

Lemma elem_of_registered_for c h (ops : list (Z * H)) :
  h ∈ registered_for c ops <-> (c, h) ∈ ops.
Proof.
  unfold registered_for. rewrite list_elem_of_fmap. split.
  - intros ([c' h'] & -> & Hin). apply list_elem_of_filter in Hin as [Hc Hin].
    cbn in Hc. subst c'. exact Hin.
  - intros Hin. exists (c, h). split; [reflexivity|].
    apply list_elem_of_filter. split; [reflexivity|exact Hin].
Qed.


(** X3: after [add_handler c h], the callbacks invoked for [c] are the
    earlier ones in their order, followed by [h] when it was not among them;
    [h] is among them, and the callbacks of every other code are as
    before. *)
Theorem add_handler_then_call reg c h :
  call_handlers c (add_handler c h reg) =
    (if bool_decide (h ∈ call_handlers c reg) then call_handlers c reg
     else call_handlers c reg ++ [h]) /\
  h ∈ call_handlers c (add_handler c h reg) /\
  (forall c', c <> c' ->
     call_handlers c' (add_handler c h reg) = call_handlers c' reg).
Proof.
  split; [|split].
  - rewrite call_handlers_add_handler. destruct (decide (c = c)); [reflexivity|congruence].
  - rewrite call_handlers_add_handler. destruct (decide (c = c)); [|congruence].
    destruct (bool_decide (h ∈ call_handlers c reg)) eqn:Hb.
    + apply bool_decide_eq_true in Hb. exact Hb.
    + apply elem_of_app. right. apply list_elem_of_singleton. reflexivity.
  - intros c' Hne. rewrite call_handlers_add_handler.
    destruct (decide (c = c')); [congruence|reflexivity].
Qed.

(** X4: on a decoder set up by a sequence of [add_handler] calls, the
    callbacks invoked for a command code are exactly those registered for
    it, each once, in the order of their first registration; a callback is
    invoked for a code if and only if some call registered it for that
    code. *)
Theorem call_handlers_first_registrations (ops : list (Z * H)) c :
  call_handlers c (registrations ops) = keep_first (registered_for c ops) /\
  (forall h, h ∈ call_handlers c (registrations ops) <-> (c, h) ∈ ops) /\
  NoDup (call_handlers c (registrations ops)).
Proof.
  split; [apply call_handlers_registrations|]. split.
  - intros h. rewrite call_handlers_registrations, elem_of_keep_first.
    apply elem_of_registered_for.
  - rewrite call_handlers_registrations. unfold keep_first.
    rewrite reverse_Permutation. apply NoDup_remove_dups.
Qed.

End DispatchFacts.

(* ===================================================================== *)
(** ** Further properties of the checksum *)
(* ===================================================================== *)

Section ChecksumMoreFacts.

Lemma checksum_of_val (body : bytearray) (last : byte) :
  byte_val (checksum_of body last) = (256 - (byte_sum body + byte_val last)) mod 256.
Proof.
  unfold checksum_of. rewrite byte_of_Z_val. apply Z.mod_mod. lia.
Qed.

Lemma checksum_of_twice (body : bytearray) (last : byte) :
  checksum_of body (checksum_of body last) = last.
Proof.
  rewrite <- (byte_of_Z_byte_val last) at 2.
  unfold checksum_of at 1. rewrite checksum_of_val.
  pose proof (byte_val_range last) as Hl.
  rewrite <- (byte_of_Z_byte_val (byte_of_Z _)). f_equal.
  rewrite byte_of_Z_val. rewrite Z.mod_mod by lia.
  Z.div_mod_to_equations. lia.
Qed.

Lemma nonempty_snoc (msg : bytearray) :
  msg <> [] -> exists body last, msg = body ++ [last].
Proof.
  intros Hne. induction msg as [|x msg' _] using rev_ind; [congruence|].
  exists msg', x. reflexivity.
Qed.

End ChecksumMoreFacts.

(** X5: [_update_checksum] raises [TypeError] on an empty array; on any
    other array it keeps the length and every byte but the last, and the
    bytes of its result add up to 0 modulo 256 exactly when the last byte
    was 0 before the call. *)
Theorem update_checksum_valid_iff_last_zero :
  _update_checksum [] = Raise TypeError /\
  (forall (body : bytearray) (last : byte),
      exists chk,
        _update_checksum (body ++ [last]) = Ok (body ++ [chk]) /\
        byte_val chk = (256 - (byte_sum body + byte_val last)) mod 256 /\
        (byte_sum (body ++ [chk]) mod 256 = 0 <-> last = x00)).
Proof.
  split; [reflexivity|].
  intros body last. exists (checksum_of body last).
  split; [apply update_checksum_snoc|]. split; [apply checksum_of_val|].
  rewrite byte_sum_app. unfold byte_sum at 2. cbn [fold_right].
  rewrite checksum_of_val.
  pose proof (byte_val_range last) as Hl.
  split.
  - intros Hs.
    assert (byte_val last = 0) by (Z.div_mod_to_equations; lia).
    rewrite <- (byte_of_Z_byte_val last). rewrite H. reflexivity.
  - intros ->. change (byte_val x00) with 0.
    Z.div_mod_to_equations. lia.
Qed.

(** X6: on a non-empty array, [_update_checksum] applied twice gives the
    array back; applied to a frame whose checksum is already in place it
    does not keep it. *)
Theorem update_checksum_involutive (msg : bytearray) :
  msg <> [] ->
  exists once,
    _update_checksum msg = Ok once /\
    length once = length msg /\
    _update_checksum once = Ok msg.
Proof.
  intros Hne. destruct (nonempty_snoc msg Hne) as (body & last & ->).
  exists (body ++ [checksum_of body last]).
  split; [apply update_checksum_snoc|].
  split; [rewrite !length_app; reflexivity|].
  rewrite update_checksum_snoc, checksum_of_twice. reflexivity.
Qed.

Lemma update_checksum_involutive_witness :
  exists once,
    _update_checksum [x09; x00; x01; x02; xff; x22; x32; x0a; x97] = Ok once /\
    length once = length [x09; x00; x01; x02; xff; x22; x32; x0a; x97] /\
    _update_checksum once = Ok [x09; x00; x01; x02; xff; x22; x32; x0a; x97].
Proof.
  apply (update_checksum_involutive [x09; x00; x01; x02; xff; x22; x32; x0a; x97]).
  discriminate.
Defined.

(* ===================================================================== *)
(** ** The control word through the encoder and the decoder *)
(* ===================================================================== *)

Section ControlRoundTripFacts.
Implicit Types (self : MessageEncode.t) (addr : Addr.t) (data : bytearray).

Lemma bits_lor (a b hi lo : Z) :
  0 <= lo <= hi ->
  bits (Z.lor a b) hi lo = Z.lor (bits a hi lo) (bits b hi lo).
Proof.
  intros H.
  replace hi with (lo + (hi - lo + 1) - 1) by lia.
  rewrite <- !land_shiftr_ones by lia.
  rewrite Z.shiftr_lor. apply Z.land_lor_distr_l.
Qed.

(** [decode] with every field read as a bit field of the control word. *)
Lemma decode_header_bits (b0 b1 b2 b3 b4 b5 : byte) (rest : bytearray) :
  decode (b0 :: b1 :: b2 :: b3 :: b4 :: b5 :: rest) =
    Ok {| Message.link := Z.testbit (256 * byte_val b0 + byte_val b1) 15;
          Message.repeater_req := bits (256 * byte_val b0 + byte_val b1) 14 13;
          Message.length := bits (256 * byte_val b0 + byte_val b1) 12 8;
          Message.ack_req := bits (256 * byte_val b0 + byte_val b1) 6 4;
          Message.tx_count := bits (256 * byte_val b0 + byte_val b1) 3 2;
          Message.tx_seq := bits (256 * byte_val b0 + byte_val b1) 1 0;
          Message.network_id := byte_val b2;
          Message.dest_id := byte_val b3;
          Message.src_id := byte_val b4;
          Message.msg_id := byte_val b5;
          Message.data := rest |}.
Proof.
  rewrite decode_header. cbv zeta.
  set (control := 256 * byte_val b0 + byte_val b1).
  f_equal. f_equal.
  - apply (land_pow2_testbit control 15). lia.
  - apply (land_shiftr_ones control 13 2); lia.
  - apply (land_shiftr_ones control 8 5); lia.
  - apply (land_shiftr_ones control 4 3); lia.
  - apply (land_shiftr_ones control 2 2); lia.
  - apply (land_ones_bits control 2); lia.
Qed.

(** The two bytes of [to_bytes(2, "big")] read back big-endian. *)
Lemma big_endian_2_value (n : Z) :
  0 <= n < 65536 ->
  256 * byte_val (byte_of_Z (Z.shiftr n 8)) + byte_val (byte_of_Z n) = n.
Proof.
  intros Hn. rewrite !byte_of_Z_val, Z.shiftr_div_pow2 by lia.
  change (2 ^ 8) with 256. Z.div_mod_to_equations. lia.
Qed.

Lemma to_bytes_big_2_inv (n : Z) (hi lo : byte) :
  to_bytes_big n 2 = Ok [hi; lo] ->
  0 <= n < 65536 /\ 256 * byte_val hi + byte_val lo = n.
Proof.
  intros E.
  assert (Hn : 0 <= n < 65536).
  { destruct (Z.le_gt_cases 0 n); [destruct (Z.lt_ge_cases n 65536)|]; try lia;
      rewrite to_bytes_big_2_overflow in E by lia; discriminate. }
  split; [exact Hn|].
  rewrite to_bytes_big_2 in E by exact Hn. injection E as <- <-.
  apply big_endian_2_value. exact Hn.
Qed.

(** What the decoder reads in a frame that the encoder returned. *)
Lemma encode_then_decode self ctl addr (src_id msg_code : Z) data (s : string) :
  _encode_message self ctl addr src_id msg_code data = Ok s ->
  0 <= wire_control self ctl addr data < 65536 /\
  exists chk,
    decode_hex s =
      Ok {| Message.link := Z.testbit (wire_control self ctl addr data) 15;
            Message.repeater_req := bits (wire_control self ctl addr data) 14 13;
            Message.length := bits (wire_control self ctl addr data) 12 8;
            Message.ack_req := bits (wire_control self ctl addr data) 6 4;
            Message.tx_count := bits (wire_control self ctl addr data) 3 2;
            Message.tx_seq := bits (wire_control self ctl addr data) 1 0;
            Message.network_id := Addr.network_id addr;
            Message.dest_id := Addr.upb_id addr;
            Message.src_id := src_id;
            Message.msg_id := msg_code;
            Message.data := data ++ [chk] |}.
Proof.
  intros E.
  destruct (encode_message_inv _ _ _ _ _ _ _ E)
    as (hi & lo & bn & bd & bs & bc & Hb & Hn & Hd & Hs & Hc & ->).
  apply to_bytes_big_2_inv in Hb as [Hr Hv].
  split; [exact Hr|].
  eexists. unfold decode_hex. rewrite fromhex_upper_hex. cbn [bind app].
  rewrite decode_header_bits, Hv, Hn, Hd, Hs, Hc. reflexivity.
Qed.

(** The built control word with no repeater and no acknowledgement
    request, for a transmit count in 1..4. *)
Lemma create_control_word_auto self addr :
  1 <= get_tx_count self (Addr.network_id addr) (Addr.upb_id addr) <= 4 ->
  _create_control_word self addr 0 0 =
    (if Addr.is_link addr then 1 else 0) * 32768 +
    (get_tx_count self (Addr.network_id addr) (Addr.upb_id addr) - 1) * 4.
Proof.
  intros Ht. rewrite create_control_word_sum by lia. lia.
Qed.

Lemma testbit_15_shifted_length (total : Z) :
  0 <= total <= 255 -> Z.testbit (total * 256) 15 = (128 <=? total).
Proof.
  intros Ht. apply testbit_div_mod; [lia|]. change (2 ^ 15) with 32768.
  destruct (Z.leb_spec 128 total); Z.div_mod_to_equations; lia.
Qed.

(** The fields of the wire control word when the encoder builds it. *)
Lemma wire_control_auto_fields self addr data :
  1 <= get_tx_count self (Addr.network_id addr) (Addr.upb_id addr) <= 4 ->
  (7 + length data <= 255)%nat ->
  Z.testbit (wire_control self (-1) addr data) 15 =
    Addr.is_link addr || (128 <=? 7 + Z.of_nat (length data)) /\
  bits (wire_control self (-1) addr data) 14 13 = ((7 + Z.of_nat (length data)) / 32) mod 4 /\
  bits (wire_control self (-1) addr data) 12 8 = (7 + Z.of_nat (length data)) mod 32 /\
  bits (wire_control self (-1) addr data) 6 4 = 0 /\
  bits (wire_control self (-1) addr data) 3 2 =
    get_tx_count self (Addr.network_id addr) (Addr.upb_id addr) - 1 /\
  bits (wire_control self (-1) addr data) 1 0 = 0.
Proof.
  intros Ht Hl. unfold wire_control. cbn [Z.eqb Z.opp Pos.eqb].
  rewrite create_control_word_auto by assumption.
  rewrite Z.shiftl_mul_pow2 by lia. change (2 ^ 8) with 256.
  set (t := get_tx_count self (Addr.network_id addr) (Addr.upb_id addr)) in *.
  set (total := 7 + Z.of_nat (length data)).
  assert (Htot : 0 <= total <= 255) by (subst total; lia).
  clearbody total t.
  split.
  { rewrite Z.lor_spec, testbit_15_shifted_length by assumption. f_equal.
    apply testbit_div_mod; [lia|]. change (2 ^ 15) with 32768.
    destruct (Addr.is_link addr); Z.div_mod_to_equations; lia. }
  rewrite !bits_lor by lia. unfold bits.
  change (2 ^ (14 - 13 + 1)) with 4. change (2 ^ (12 - 8 + 1)) with 32.
  change (2 ^ (6 - 4 + 1)) with 8. change (2 ^ (3 - 2 + 1)) with 4.
  change (2 ^ (1 - 0 + 1)) with 4.
  change (2 ^ 13) with 8192. change (2 ^ 8) with 256.
  change (2 ^ 4) with 16. change (2 ^ 2) with 4. change (2 ^ 0) with 1.
  assert (E1 : (((if Addr.is_link addr then 1 else 0) * 32768 + (t - 1) * 4) / 8192) mod 4 = 0)
    by (destruct (Addr.is_link addr); Z.div_mod_to_equations; lia).
  assert (E2 : (((if Addr.is_link addr then 1 else 0) * 32768 + (t - 1) * 4) / 256) mod 32 = 0)
    by (destruct (Addr.is_link addr); Z.div_mod_to_equations; lia).
  assert (E3 : (((if Addr.is_link addr then 1 else 0) * 32768 + (t - 1) * 4) / 16) mod 8 = 0)
    by (destruct (Addr.is_link addr); Z.div_mod_to_equations; lia).
  assert (E4 : (((if Addr.is_link addr then 1 else 0) * 32768 + (t - 1) * 4) / 4) mod 4 = t - 1)
    by (destruct (Addr.is_link addr); Z.div_mod_to_equations; lia).
  assert (E5 : (((if Addr.is_link addr then 1 else 0) * 32768 + (t - 1) * 4) / 1) mod 4 = 0)
    by (destruct (Addr.is_link addr); Z.div_mod_to_equations; lia).
  assert (F1 : (total * 256 / 8192) mod 4 = (total / 32) mod 4)
    by (Z.div_mod_to_equations; lia).
  assert (F2 : (total * 256 / 256) mod 32 = total mod 32)
    by (Z.div_mod_to_equations; lia).
  assert (F3 : (total * 256 / 16) mod 8 = 0) by (Z.div_mod_to_equations; lia).
  assert (F4 : (total * 256 / 4) mod 4 = 0) by (Z.div_mod_to_equations; lia).
  assert (F5 : (total * 256 / 1) mod 4 = 0) by (Z.div_mod_to_equations; lia).
  rewrite E1, E2, E3, E4, E5, F1, F2, F3, F4, F5.
  rewrite !Z.lor_0_l, !Z.lor_0_r. repeat split; reflexivity.
Qed.

End ControlRoundTripFacts.

(** X7: with the control word built by the encoder, a transmit count in
    1..4 and a total length of at most 31 bytes, decoding the returned frame
    gives back the link flag of the address, the total length 7 +
    len(payload), the transmit count minus one, zero repeater request,
    acknowledgement request and sequence, the four identifiers, and the
    payload followed by the checksum byte. *)
Theorem encode_auto_then_decode
    (self : MessageEncode.t) (addr : Addr.t) (src_id msg_code : Z)
    (data : bytearray) (s : string) :
  1 <= get_tx_count self (Addr.network_id addr) (Addr.upb_id addr) <= 4 ->
  (7 + length data <= 31)%nat ->
  _encode_message self (-1) addr src_id msg_code data = Ok s ->
  exists chk,
    decode_hex s =
      Ok {| Message.link := Addr.is_link addr;
            Message.repeater_req := 0;
            Message.length := 7 + Z.of_nat (length data);
            Message.ack_req := 0;
            Message.tx_count :=
              get_tx_count self (Addr.network_id addr) (Addr.upb_id addr) - 1;
            Message.tx_seq := 0;
            Message.network_id := Addr.network_id addr;
            Message.dest_id := Addr.upb_id addr;
            Message.src_id := src_id;
            Message.msg_id := msg_code;
            Message.data := data ++ [chk] |}.
Proof.
  intros Ht Hl E.
  destruct (encode_then_decode _ _ _ _ _ _ _ E) as (_ & chk & D).
  destruct (wire_control_auto_fields self addr data Ht ltac:(lia))
    as (F15 & F14 & F12 & F6 & F3 & F1).
  exists chk. rewrite D, F15, F14, F12, F6, F3, F1.
  destruct (Z.leb_spec 128 (7 + Z.of_nat (length data))) as [Hbig|_]; [lia|].
  rewrite orb_false_r.
  rewrite (Z.mod_small (7 + Z.of_nat (length data)) 32) by lia.
  rewrite (Z.div_small (7 + Z.of_nat (length data)) 32) by lia.
  reflexivity.
Qed.

Lemma encode_auto_then_decode_witness :
  exists chk,
    decode_hex "88080109FF223213" =
      Ok {| Message.link := true;
            Message.repeater_req := 0;
            Message.length := 7 + Z.of_nat (length [x32]);
            Message.ack_req := 0;
            Message.tx_count := 3 - 1;
            Message.tx_seq := 0;
            Message.network_id := 1;
            Message.dest_id := 9;
            Message.src_id := 0xFF;
            Message.msg_id := 0x22;
            Message.data := [x32] ++ [chk] |}.
Proof.
  apply (encode_auto_then_decode three_transmits link_1_9 0xFF 0x22 [x32]).
  - simpl. lia.
  - simpl. lia.
  - reflexivity.
Defined.

(** X8: a frame of 32 to 255 bytes is encoded all the same, but its length
    does not fit the five length bits: the decoder reads the length modulo
    32, which is less than the real length, finds the overflow in the
    repeater request, and from 128 bytes on reads every frame as addressed
    to a link. *)
Theorem encode_overlong_then_decode
    (self : MessageEncode.t) (addr : Addr.t) (src_id msg_code : Z)
    (data : bytearray) (s : string) :
  1 <= get_tx_count self (Addr.network_id addr) (Addr.upb_id addr) <= 4 ->
  (32 <= 7 + length data <= 255)%nat ->
  _encode_message self (-1) addr src_id msg_code data = Ok s ->
  exists m,
    decode_hex s = Ok m /\
    Message.length m = (7 + Z.of_nat (length data)) mod 32 /\
    Message.length m < 7 + Z.of_nat (length data) /\
    Message.repeater_req m = ((7 + Z.of_nat (length data)) / 32) mod 4 /\
    Message.link m = Addr.is_link addr || (128 <=? 7 + Z.of_nat (length data)).
Proof.
  intros Ht Hl E.
  destruct (encode_then_decode _ _ _ _ _ _ _ E) as (_ & chk & D).
  destruct (wire_control_auto_fields self addr data Ht ltac:(lia))
    as (F15 & F14 & F12 & _).
  eexists. split; [exact D|].
  cbn [Message.length Message.repeater_req Message.link].
  rewrite F15, F14, F12. repeat split.
  Z.div_mod_to_equations. lia.
Qed.

Lemma encode_overlong_then_decode_witness :
  exists m,
    decode_hex "20000102FF2200000000000000000000000000000000000000000000000000BC" = Ok m /\
    Message.length m = (7 + Z.of_nat (length (replicate 25 x00))) mod 32 /\
    Message.length m < 7 + Z.of_nat (length (replicate 25 x00)) /\
    Message.repeater_req m = ((7 + Z.of_nat (length (replicate 25 x00))) / 32) mod 4 /\
    Message.link m = false || (128 <=? 7 + Z.of_nat (length (replicate 25 x00))).
Proof.
  apply (encode_overlong_then_decode one_transmit device_1_2 PIM_ID 0x22 (replicate 25 x00)).
  - simpl. lia.
  - simpl. lia.
  - reflexivity.
Defined.

(** X9: a control word handed to the encoder (anything but -1) is not
    rebuilt: the frame length is or-ed into it.  When the encoder returns,
    the decoder reads the acknowledgement request, transmit count and
    sequence of the given word, and as length the given length bits or-ed
    with the frame length modulo 32. *)
Theorem encode_given_control_then_decode
    (self : MessageEncode.t) (ctl : Z) (addr : Addr.t) (src_id msg_code : Z)
    (data : bytearray) (s : string) :
  ctl <> -1 ->
  (7 + length data <= 255)%nat ->
  _encode_message self ctl addr src_id msg_code data = Ok s ->
  exists m,
    decode_hex s = Ok m /\
    Message.ack_req m = bits ctl 6 4 /\
    Message.tx_count m = bits ctl 3 2 /\
    Message.tx_seq m = bits ctl 1 0 /\
    Message.length m = Z.lor (bits ctl 12 8) ((7 + Z.of_nat (length data)) mod 32).
Proof.
  intros Hctl Hl E.
  destruct (encode_then_decode _ _ _ _ _ _ _ E) as (_ & chk & D).
  eexists. split; [exact D|].
  cbn [Message.ack_req Message.tx_count Message.tx_seq Message.length].
  unfold wire_control. destruct (Z.eqb_spec ctl (-1)) as [|_]; [congruence|].
  rewrite !bits_lor by lia.
  rewrite Z.shiftl_mul_pow2 by lia. change (2 ^ 8) with 256.
  set (total := 7 + Z.of_nat (length data)).
  assert (F2 : bits (total * 256) 12 8 = total mod 32)
    by (unfold bits; change (2 ^ (12 - 8 + 1)) with 32; change (2 ^ 8) with 256;
        Z.div_mod_to_equations; lia).
  assert (F3 : bits (total * 256) 6 4 = 0)
    by (unfold bits; change (2 ^ (6 - 4 + 1)) with 8; change (2 ^ 4) with 16;
        Z.div_mod_to_equations; lia).
  assert (F4 : bits (total * 256) 3 2 = 0)
    by (unfold bits; change (2 ^ (3 - 2 + 1)) with 4; change (2 ^ 2) with 4;
        Z.div_mod_to_equations; lia).
  assert (F5 : bits (total * 256) 1 0 = 0)
    by (unfold bits; change (2 ^ (1 - 0 + 1)) with 4; change (2 ^ 0) with 1;
        Z.div_mod_to_equations; lia).
  rewrite F2, F3, F4, F5, !Z.lor_0_r. repeat split; reflexivity.
Qed.

Lemma encode_given_control_then_decode_witness :
  exists m,
    decode_hex "0F56010CFF226D" = Ok m /\
    Message.ack_req m = bits 0x0856 6 4 /\
    Message.tx_count m = bits 0x0856 3 2 /\
    Message.tx_seq m = bits 0x0856 1 0 /\
    Message.length m = Z.lor (bits 0x0856 12 8) ((7 + Z.of_nat (length (@nil byte))) mod 32).
Proof.
  apply (encode_given_control_then_decode one_transmit 0x0856
           (Addr.mk 1 12 0 false false true) PIM_ID 0x22 []).
  - discriminate.
  - simpl. lia.
  - reflexivity.
Defined.

Section ReencodeFacts.

(** Or-ing its own length field back into a control word changes nothing. *)
Lemma lor_own_length (c : Z) : Z.lor c (Z.shiftl (bits c 12 8) 8) = c.
Proof.
  replace (bits c 12 8) with (Z.land (Z.shiftr c 8) (Z.ones 5))
    by (apply (land_shiftr_ones c 8 5); lia).
  apply Z.bits_inj'. intros n Hn.
  rewrite Z.lor_spec.
  destruct (Z.lt_ge_cases n 8) as [Hlt|Hge].
  - rewrite Z.shiftl_spec_low by assumption. apply orb_false_r.
  - rewrite Z.shiftl_spec by assumption.
    rewrite Z.land_spec, Z.shiftr_spec by lia.
    replace (n - 8 + 8) with n by lia.
    destruct (Z.testbit c n); [reflexivity|]. reflexivity.
Qed.

Lemma byte_of_Z_low (hi lo : Z) : byte_of_Z (256 * hi + lo) = byte_of_Z lo.
Proof.
  unfold byte_of_Z.
  replace ((256 * hi + lo) mod 256) with (lo mod 256); [reflexivity|].
  rewrite Z.add_comm, Z.mul_comm. symmetry. apply Z.mod_add. lia.
Qed.

Lemma as_byte_of_byte (b : byte) : as_byte (byte_val b) = Ok b.
Proof.
  rewrite as_byte_in_range by apply byte_val_range.
  now rewrite byte_of_Z_byte_val.
Qed.

End ReencodeFacts.

(** X10: decoding and encoding again gives the frame back.  If [decode]
    returns a message for a frame without its checksum, and the length field
    of the frame counts its bytes and the checksum, then [_encode_message]
    on the control word of the frame, the decoded identifiers and the decoded
    data returns the hex of the same frame with its checksum byte appended. *)
Theorem decode_then_encode
    (self : MessageEncode.t) (frame : bytearray) (m : Message.t) (addr : Addr.t) :
  decode frame = Ok m ->
  Message.length m = Z.of_nat (length frame) + 1 ->
  Addr.network_id addr = Message.network_id m ->
  Addr.upb_id addr = Message.dest_id m ->
  _encode_message self (from_bytes_big (take 2 frame)) addr
      (Message.src_id m) (Message.msg_id m) (Message.data m) =
    Ok (upper (hex (frame ++ [checksum_of frame x00]))).
Proof.
  intros D Hlen Hn Hd.
  destruct (decode_ok_inv frame m D) as (b0 & b1 & b2 & b3 & b4 & b5 & rest & ->).
  rewrite decode_header_bits in D. injection D as <-.
  cbn [Message.length Message.network_id Message.dest_id Message.src_id
       Message.msg_id Message.data] in *.
  cbn [take firstn]. rewrite from_bytes_big_2.
  set (c := 256 * byte_val b0 + byte_val b1) in *.
  pose proof (byte_val_range b0) as H0. pose proof (byte_val_range b1) as H1.
  assert (Hc : 0 <= c < 65536) by (subst c; lia).
  unfold _encode_message. rewrite encode_frame_eq.
  assert (Hw : wire_control self c addr rest = c).
  { unfold wire_control. destruct (Z.eqb_spec c (-1)) as [|_]; [lia|].
    replace (7 + Z.of_nat (length rest)) with (bits c 12 8).
    - apply lor_own_length.
    - rewrite Hlen. cbn [length]. lia. }
  rewrite Hw, to_bytes_big_2 by exact Hc. cbn [bind].
  rewrite Hn, Hd, !as_byte_of_byte. cbn [bind app].
  replace (byte_of_Z (Z.shiftr c 8)) with b0.
  2:{ rewrite Z.shiftr_div_pow2 by lia. change (2 ^ 8) with 256.
      replace (c / 256) with (byte_val b0) by (subst c; Z.div_mod_to_equations; lia).
      symmetry. apply byte_of_Z_byte_val. }
  replace (byte_of_Z c) with b1.
  2:{ subst c. rewrite byte_of_Z_low. symmetry. apply byte_of_Z_byte_val. }
  reflexivity.
Qed.

Lemma decode_then_encode_witness :
  _encode_message one_transmit (from_bytes_big (take 2 [x88; x08; x01; x09; xff; x22; x32]))
      (Addr.mk 1 9 0 false true false) 0xFF 0x22 [x32] =
    Ok (upper (hex ([x88; x08; x01; x09; xff; x22; x32] ++
                    [checksum_of [x88; x08; x01; x09; xff; x22; x32] x00]))).
Proof.
  apply (decode_then_encode one_transmit [x88; x08; x01; x09; xff; x22; x32]
           {| Message.link := true; Message.repeater_req := 0; Message.length := 8;
              Message.ack_req := 0; Message.tx_count := 2; Message.tx_seq := 0;
              Message.network_id := 1; Message.dest_id := 9; Message.src_id := 0xFF;
              Message.msg_id := 0x22; Message.data := [x32] |}
           (Addr.mk 1 9 0 false true false)); reflexivity.
Defined.

(* ===================================================================== *)
(** ** The command encoders *)
(* ===================================================================== *)

Section CommandFacts.
Implicit Types (self : MessageEncode.t) (addr : Addr.t).

(** A command without payload, sent from the PIM with a built control
    word. *)
Lemma encode_no_payload self addr (code : Z) :
  1 <= get_tx_count self (Addr.network_id addr) (Addr.upb_id addr) <= 4 ->
  0 <= Addr.network_id addr < 256 ->
  0 <= Addr.upb_id addr < 256 ->
  0 <= code < 256 ->
  exists s chk,
    _encode_message self (-1) addr PIM_ID code [] = Ok s /\
    String.length s = 14%nat /\
    decode_hex s =
      Ok {| Message.link := Addr.is_link addr;
            Message.repeater_req := 0;
            Message.length := 7;
            Message.ack_req := 0;
            Message.tx_count :=
              get_tx_count self (Addr.network_id addr) (Addr.upb_id addr) - 1;
            Message.tx_seq := 0;
            Message.network_id := Addr.network_id addr;
            Message.dest_id := Addr.upb_id addr;
            Message.src_id := 0xFF;
            Message.msg_id := code;
            Message.data := [chk] |}.
Proof.
  intros Ht Hn Hd Hc.
  destruct (encode_message_ok self (-1) addr PIM_ID code []) as (frame & E & L);
    try assumption; try (unfold PIM_ID; lia).
  { apply wire_control_range; [|simpl; lia].
    cbn [Z.eqb Z.opp Pos.eqb]. rewrite create_control_word_auto by assumption.
    destruct (Addr.is_link addr); lia. }
  destruct (encode_then_decode _ _ _ _ _ _ _ E) as (_ & chk & D).
  destruct (wire_control_auto_fields self addr [] Ht ltac:(simpl; lia))
    as (F15 & F14 & F12 & F6 & F3 & F1).
  exists (upper (hex frame)), chk. split; [exact E|]. split.
  - rewrite length_upper_hex, L. reflexivity.
  - rewrite D, F15, F14, F12, F6, F3, F1. cbn [length app]. rewrite orb_false_r.
    reflexivity.
Qed.

Lemma bytearray_of_raise_head (v : Z) (vs : list Z) :
  ~ 0 <= v < 256 -> bytearray_of (v :: vs) = Raise ValueError.
Proof. intros Hv. cbn [bytearray_of]. now rewrite as_byte_out_of_range. Qed.

Lemma bytearray_of_raise (vs : list Z) (v : Z) :
  v ∈ vs -> ~ 0 <= v < 256 -> bytearray_of vs = Raise ValueError.
Proof.
  intros Hin Hv. induction vs as [|x vs IH]; [inversion Hin|].
  cbn [bytearray_of].
  apply elem_of_cons in Hin as [<-|Hin].
  - rewrite as_byte_out_of_range by assumption. reflexivity.
  - destruct (as_byte_cases x) as [[b ->]| ->]; [rewrite (IH Hin)|]; reflexivity.
Qed.

End CommandFacts.

(** X11: [activate_link], [deactivate_link], [fade_stop] and
    [report_state], called without a control word for an address whose two
    identifiers are bytes and a transmit count in 1..4, return 14 hex digits:
    a frame of length 7, sent from the PIM (source 0xFF), with the command
    code of the operation, no payload (the data is the checksum byte alone),
    the link flag of the address and the transmit count minus one. *)
Theorem no_payload_commands
    (table : UpbCommand.table) (self : MessageEncode.t) (addr : Addr.t) (code : Z) :
  1 <= get_tx_count self (Addr.network_id addr) (Addr.upb_id addr) <= 4 ->
  0 <= Addr.network_id addr < 256 ->
  0 <= Addr.upb_id addr < 256 ->
  0 <= code < 256 ->
  forall encoder : MessageEncode.t -> Addr.t -> Z -> result string,
    (encoder = activate_link table /\ code = UpbCommand.ACTIVATE table) \/
    (encoder = deactivate_link table /\ code = UpbCommand.DEACTIVATE table) \/
    (encoder = fade_stop table /\ code = UpbCommand.FADE_STOP table) \/
    (encoder = report_state table /\ code = UpbCommand.REPORT_STATE table) ->
    exists s chk,
      encoder self addr (-1) = Ok s /\
      String.length s = 14%nat /\
      decode_hex s =
        Ok {| Message.link := Addr.is_link addr;
              Message.repeater_req := 0;
              Message.length := 7;
              Message.ack_req := 0;
              Message.tx_count :=
                get_tx_count self (Addr.network_id addr) (Addr.upb_id addr) - 1;
              Message.tx_seq := 0;
              Message.network_id := Addr.network_id addr;
              Message.dest_id := Addr.upb_id addr;
              Message.src_id := 0xFF;
              Message.msg_id := code;
              Message.data := [chk] |}.
Proof.
  intros Ht Hn Hd Hc encoder Henc.
  destruct Henc as [[-> ->]|[[-> ->]|[[-> ->]| [-> ->]]]];
    apply encode_no_payload; assumption.
Qed.

Lemma no_payload_commands_witness :
  exists s chk,
    report_state (UpbCommand.mk 0x20 0x21 0x22 0x23 0x24 0x25 0x30)
      three_transmits link_1_9 (-1) = Ok s /\
    String.length s = 14%nat /\
    decode_hex s =
      Ok {| Message.link := true;
            Message.repeater_req := 0;
            Message.length := 7;
            Message.ack_req := 0;
            Message.tx_count := 3 - 1;
            Message.tx_seq := 0;
            Message.network_id := 1;
            Message.dest_id := 9;
            Message.src_id := 0xFF;
            Message.msg_id := 0x30;
            Message.data := [chk] |}.
Proof.
  apply (no_payload_commands (UpbCommand.mk 0x20 0x21 0x22 0x23 0x24 0x25 0x30)
           three_transmits link_1_9 0x30); try (simpl; lia).
  right. right. right. split; reflexivity.
Defined.

(** X12: the payload bytes are checked before anything is encoded.
    [goto] and [fade_start] raise [ValueError] when the level, a rate other
    than -1, or (for a multi-channel device) the channel plus one is not in
    0..255, and [blink] raises it when its rate is not, so also for a rate
    of -1; the address and the control word play no part. *)
Theorem payload_value_errors
    (table : UpbCommand.table) (self : MessageEncode.t) (addr : Addr.t) (ctl : Z) :
  (forall level rate,
      ~ 0 <= level < 256 \/
      (rate <> -1 /\ ~ 0 <= rate < 256) \/
      (Addr.is_device addr && Addr.multi_channel addr = true /\
       ~ 0 <= Addr.channel addr + 1 < 256) ->
      goto table self addr level rate ctl = Raise ValueError /\
      fade_start table self addr level rate ctl = Raise ValueError) /\
  (forall rate,
      ~ 0 <= rate < 256 -> blink table self addr rate ctl = Raise ValueError).
Proof.
  split.
  - intros level rate Hbad.
    assert (E : bytearray_of (level_rate_payload addr level rate) = Raise ValueError).
    { unfold level_rate_payload.
      destruct Hbad as [Hl|[[Hr1 Hr2]|[Hm Hc]]].
      - destruct (Addr.is_device addr && Addr.multi_channel addr);
          [|destruct (negb (rate =? -1))]; apply bytearray_of_raise_head; exact Hl.
      - destruct (Z.eqb_spec rate (-1)) as [|_]; [congruence|]. cbn [negb].
        destruct (Addr.is_device addr && Addr.multi_channel addr);
          apply (bytearray_of_raise _ rate); try exact Hr2;
          apply elem_of_cons; right; apply elem_of_cons; left; reflexivity.
      - rewrite Hm. apply (bytearray_of_raise _ (Addr.channel addr + 1)); [|exact Hc].
        do 2 (apply elem_of_cons; right). apply elem_of_cons. left. reflexivity. }
    unfold goto, fade_start, _encode_common.
    rewrite encode_common_args_eq, E. split; reflexivity.
  - intros rate Hr. unfold blink. rewrite bytearray_of_raise_head by exact Hr.
    reflexivity.
Qed.

(* ===================================================================== *)
(** ** Further properties of increment_tx_count *)
(* ===================================================================== *)

Section IncrementMoreFacts.

(** [fromhex] raises nothing but [ValueError]. *)
Lemma fromhex_raise_pair (s : string) :
  (forall e, fromhex s = Raise e -> e = ValueError) /\
  (forall c e, fromhex (String c s) = Raise e -> e = ValueError).
Proof.
  induction s as [|d s [IH1 IH2]].
  - split; [discriminate|].
    intros c e. cbn [fromhex]. destruct (isspace c); [discriminate|].
    destruct (digit_value c); congruence.
  - split; [apply IH2|].
    intros c e. cbn [fromhex]. fold (fromhex (String d s)).
    destruct (isspace c); [apply IH2|].
    destruct (digit_value c); [|congruence].
    destruct (digit_value d); [|congruence].
    destruct (fromhex s) as [rest|e'] eqn:E; [discriminate|].
    intros [= <-]. apply IH1. reflexivity.
Qed.

Lemma fromhex_raise (s : string) (e : exception) :
  fromhex s = Raise e -> e = ValueError.
Proof. apply fromhex_raise_pair. Qed.

Lemma bumped_plus_4 (b : byte) :
  bits (byte_val b) 3 2 < 3 -> bumped b = byte_val b + 4.
Proof. destruct b; vm_compute; intros H; try reflexivity; discriminate H. Qed.

(** Adding 4 to a control word whose transmit count is below 3 bumps that
    field and leaves the others. *)
Lemma control_plus_4 (c : Z) :
  bits c 3 2 < 3 ->
  Z.testbit (c + 4) 15 = Z.testbit c 15 /\
  bits (c + 4) 14 13 = bits c 14 13 /\
  bits (c + 4) 12 8 = bits c 12 8 /\
  bits (c + 4) 6 4 = bits c 6 4 /\
  bits (c + 4) 3 2 = bits c 3 2 + 1 /\
  bits (c + 4) 1 0 = bits c 1 0.
Proof.
  intros Ht. split.
  { apply testbit_div_mod; [lia|].
    pose proof (Z.testbit_spec' c 15 ltac:(lia)) as Hb.
    unfold bits in Ht. change (2 ^ (3 - 2 + 1)) with 4 in Ht.
    change (2 ^ 2) with 4 in Ht. change (2 ^ 15) with 32768 in *.
    destruct (Z.testbit c 15); cbn [Z.b2z] in Hb;
      Z.div_mod_to_equations; lia. }
  unfold bits in *.
  change (2 ^ (14 - 13 + 1)) with 4. change (2 ^ (12 - 8 + 1)) with 32.
  change (2 ^ (6 - 4 + 1)) with 8. change (2 ^ (3 - 2 + 1)) with 4 in *.
  change (2 ^ (1 - 0 + 1)) with 4.
  change (2 ^ 13) with 8192. change (2 ^ 8) with 256.
  change (2 ^ 4) with 16. change (2 ^ 2) with 4 in *. change (2 ^ 0) with 1.
  repeat split; Z.div_mod_to_equations; lia.
Qed.

(** [increment_tx_count] returns on every frame of at least two bytes. *)
Lemma increment_defined (h : string) (msg : bytearray) :
  fromhex h = Ok msg -> (2 <= length msg)%nat ->
  exists s, increment_tx_count h = Ok s.
Proof.
  intros Hf Hl. destruct msg as [|b0 [|b1 rest]]; simpl in Hl; try lia.
  unfold increment_tx_count. rewrite Hf. cbn [bind]. rewrite getitem_1.
  cbn [bind]. cbv zeta.
  destruct (Z.eqb_spec (Z.land (Z.shiftr (byte_val b1) 2) 3) 3) as [|Hne];
    [eauto|].
  assert (Ht : bits (byte_val b1) 3 2 < 3).
  { rewrite tx_count_bits in Hne.
    pose proof (bits_range (byte_val b1) 3 2 ltac:(lia)) as Hr.
    change (2 ^ (3 - 2 + 1)) with 4 in Hr. lia. }
  fold (bumped b1).
  rewrite setitem_1 by (apply bumped_spec; exact Ht). cbn [bind].
  destruct (nonempty_snoc (b0 :: byte_of_Z (bumped b1) :: rest) ltac:(discriminate))
    as (body & last & ->).
  rewrite setitem_last_snoc by lia. cbn [bind].
  rewrite update_checksum_snoc. cbn [bind]. eauto.
Qed.

End IncrementMoreFacts.

(** X13: [increment_tx_count] raises [ValueError] when the string is not
    hexadecimal (whatever [fromhex] raises is a [ValueError]), raises
    [IndexError] when the string holds fewer than two bytes, the empty
    string among them, and returns a string in every other case. *)
Theorem increment_tx_count_errors :
  (forall (h : string) (e : exception),
      fromhex h = Raise e -> increment_tx_count h = Raise ValueError) /\
  (forall (h : string) (msg : bytearray),
      fromhex h = Ok msg -> (length msg < 2)%nat ->
      increment_tx_count h = Raise IndexError) /\
  increment_tx_count "" = Raise IndexError /\
  increment_tx_count "0G" = Raise ValueError /\
  increment_tx_count "090" = Raise ValueError /\
  (forall (h : string) (msg : bytearray),
      fromhex h = Ok msg -> (2 <= length msg)%nat ->
      exists s, increment_tx_count h = Ok s).
Proof.
  split; [|split; [|split; [|split; [|split]]]]; try reflexivity.
  - intros h e Hf. unfold increment_tx_count.
    rewrite Hf, (fromhex_raise h e Hf). reflexivity.
  - intros h msg Hf Hl. unfold increment_tx_count. rewrite Hf. cbn [bind].
    destruct msg as [|b0 [|b1 rest]]; simpl in Hl; try lia; reflexivity.
  - exact increment_defined.
Qed.

(** X14: on a hex frame of at least seven bytes whose transmit count is
    below 3, the decoder reads in the result of [increment_tx_count] the
    fields it read in the input, with the transmit count one more and the
    last data byte (the checksum) replaced. *)
Theorem increment_then_decode (h : string) (msg : bytearray) (m : Message.t) :
  fromhex h = Ok msg ->
  (7 <= length msg)%nat ->
  decode msg = Ok m ->
  Message.tx_count m < 3 ->
  exists h' chk,
    increment_tx_count h = Ok h' /\
    decode_hex h' =
      Ok {| Message.link := Message.link m;
            Message.repeater_req := Message.repeater_req m;
            Message.length := Message.length m;
            Message.ack_req := Message.ack_req m;
            Message.tx_count := Message.tx_count m + 1;
            Message.tx_seq := Message.tx_seq m;
            Message.network_id := Message.network_id m;
            Message.dest_id := Message.dest_id m;
            Message.src_id := Message.src_id m;
            Message.msg_id := Message.msg_id m;
            Message.data := removelast (Message.data m) ++ [chk] |}.
Proof.
  intros Hf Hl D Ht.
  destruct msg as [|b0 [|b1 [|b2 [|b3 [|b4 [|b5 rest]]]]]]; simpl in Hl; try lia.
  destruct (nonempty_snoc rest) as (mid & last & ->).
  { destruct rest; [simpl in Hl; lia|discriminate]. }
  rewrite decode_header_bits in D. injection D as <-.
  cbn [Message.link Message.repeater_req Message.length Message.ack_req
       Message.tx_count Message.tx_seq Message.network_id Message.dest_id
       Message.src_id Message.msg_id Message.data] in *.
  assert (Hb : bits (byte_val b1) 3 2 < 3) by (rewrite <- (bits_low_byte b0) by lia; exact Ht).
  exists (upper (hex ((b0 :: byte_of_Z (bumped b1) :: b2 :: b3 :: b4 :: b5 :: mid) ++
                      [checksum_of (b0 :: byte_of_Z (bumped b1) :: b2 :: b3 :: b4 :: b5 :: mid) x00]))),
         (checksum_of (b0 :: byte_of_Z (bumped b1) :: b2 :: b3 :: b4 :: b5 :: mid) x00).
  split.
  { apply (increment_bump h b0 b1 (b2 :: b3 :: b4 :: b5 :: mid) last Hf Hb). }
  unfold decode_hex. rewrite fromhex_upper_hex. cbn [bind app].
  rewrite decode_header_bits.
  assert (Hv : byte_val (byte_of_Z (bumped b1)) = byte_val b1 + 4).
  { rewrite byte_of_Z_val, Z.mod_small by (apply bumped_spec; exact Hb).
    apply bumped_plus_4. exact Hb. }
  rewrite Hv.
  replace (256 * byte_val b0 + (byte_val b1 + 4))
    with (256 * byte_val b0 + byte_val b1 + 4) by lia.
  destruct (control_plus_4 (256 * byte_val b0 + byte_val b1) Ht)
    as (C15 & C14 & C12 & C6 & C3 & C1).
  rewrite C15, C14, C12, C6, C3, C1, removelast_last. reflexivity.
Qed.

Lemma increment_then_decode_witness :
  exists h' chk,
    increment_tx_count "09040102FF22320A93" = Ok h' /\
    decode_hex h' =
      Ok {| Message.link := false;
            Message.repeater_req := 0;
            Message.length := 9;
            Message.ack_req := 0;
            Message.tx_count := 1 + 1;
            Message.tx_seq := 0;
            Message.network_id := 1;
            Message.dest_id := 2;
            Message.src_id := 0xFF;
            Message.msg_id := 0x22;
            Message.data := removelast [x32; x0a; x93] ++ [chk] |}.
Proof.
  apply (increment_then_decode "09040102FF22320A93"
           [x09; x04; x01; x02; xff; x22; x32; x0a; x93]
           {| Message.link := false; Message.repeater_req := 0; Message.length := 9;
              Message.ack_req := 0; Message.tx_count := 1; Message.tx_seq := 0;
              Message.network_id := 1; Message.dest_id := 2; Message.src_id := 0xFF;
              Message.msg_id := 0x22; Message.data := [x32; x0a; x93] |}).
  - reflexivity.
  - simpl. lia.
  - reflexivity.
  - simpl. lia.
Defined.

Section RetransmitFacts.
Implicit Types (self : MessageEncode.t) (addr : Addr.t) (data : bytearray).

(** Or-ing two multiples of 256, one of them carrying a low byte. *)
Lemma lor_with_low_byte (a b x : Z) :
  0 <= x < 256 -> Z.lor (a * 256 + x) (b * 256) = Z.lor a b * 256 + x.
Proof.
  intros Hx.
  assert (E1 : a * 256 + x = Z.lor (a * 256) x).
  { symmetry. apply (lor_disjoint_add a x 8); [lia|]. change (2 ^ 8) with 256. lia. }
  assert (E2 : Z.lor (a * 256) (b * 256) = Z.lor a b * 256).
  { change 256 with (2 ^ 8). rewrite <- !Z.shiftl_mul_pow2 by lia.
    symmetry. apply Z.shiftl_lor. }
  rewrite E1, <- Z.lor_assoc, (Z.lor_comm x), Z.lor_assoc, E2.
  apply (lor_disjoint_add (Z.lor a b) x 8); [lia|]. change (2 ^ 8) with 256. lia.
Qed.

(** The wire control word of an encoder-built frame, byte by byte. *)
Lemma wire_control_auto_bytes self addr data :
  1 <= get_tx_count self (Addr.network_id addr) (Addr.upb_id addr) <= 4 ->
  wire_control self (-1) addr data =
    Z.lor ((if Addr.is_link addr then 1 else 0) * 128) (7 + Z.of_nat (length data)) * 256 +
    (get_tx_count self (Addr.network_id addr) (Addr.upb_id addr) - 1) * 4.
Proof.
  intros Ht. unfold wire_control. cbn [Z.eqb Z.opp Pos.eqb].
  rewrite create_control_word_auto by assumption.
  rewrite Z.shiftl_mul_pow2 by lia. change (2 ^ 8) with 256.
  rewrite <- lor_with_low_byte by lia. f_equal. lia.
Qed.

Lemma big_endian_2_bytes (hi lo : Z) :
  0 <= lo < 256 ->
  byte_of_Z (Z.shiftr (hi * 256 + lo) 8) = byte_of_Z hi /\
  byte_of_Z (hi * 256 + lo) = byte_of_Z lo.
Proof.
  intros Hlo. split.
  - rewrite Z.shiftr_div_pow2 by lia. change (2 ^ 8) with 256. f_equal.
    Z.div_mod_to_equations. lia.
  - rewrite (Z.mul_comm hi). apply byte_of_Z_low.
Qed.

Lemma bumped_count_byte (t : Z) :
  1 <= t <= 3 ->
  bits (byte_val (byte_of_Z ((t - 1) * 4))) 3 2 < 3 /\
  byte_of_Z (bumped (byte_of_Z ((t - 1) * 4))) = byte_of_Z (t * 4).
Proof.
  intros Ht. assert (t = 1 \/ t = 2 \/ t = 3) as [->|[->| ->]] by lia;
    split; vm_compute; reflexivity.
Qed.

End RetransmitFacts.

(** X15: bumping the transmit count of an encoded frame is encoding it
    again with a counter that declares one transmission more.  For a frame
    that [_encode_message] built with its own control word, of at most 255
    bytes and for a declared count of 1 to 3, [increment_tx_count] returns
    what [_encode_message] returns for any encoder whose counter gives one
    more for that address. *)
Theorem increment_encoded_frame
    (self next : MessageEncode.t) (addr : Addr.t) (src_id msg_code : Z)
    (data : bytearray) (s : string) :
  1 <= get_tx_count self (Addr.network_id addr) (Addr.upb_id addr) <= 3 ->
  get_tx_count next (Addr.network_id addr) (Addr.upb_id addr) =
    get_tx_count self (Addr.network_id addr) (Addr.upb_id addr) + 1 ->
  _encode_message self (-1) addr src_id msg_code data = Ok s ->
  increment_tx_count s = _encode_message next (-1) addr src_id msg_code data.
Proof.
  intros Ht Hnext E.
  destruct (encode_message_inv _ _ _ _ _ _ _ E)
    as (hi & lo & bn & bd & bs & bc & Hb & Hn & Hd & Hs & Hc & ->).
  set (t := get_tx_count self (Addr.network_id addr) (Addr.upb_id addr)) in *.
  set (top := Z.lor ((if Addr.is_link addr then 1 else 0) * 128)
                    (7 + Z.of_nat (length data))).
  assert (Hw : wire_control self (-1) addr data = top * 256 + (t - 1) * 4)
    by (apply wire_control_auto_bytes; subst t; lia).
  assert (Hw' : wire_control next (-1) addr data = top * 256 + t * 4).
  { rewrite wire_control_auto_bytes by (rewrite Hnext; subst t; lia).
    rewrite Hnext. fold t. fold top. f_equal. lia. }
  pose proof (to_bytes_big_2_inv _ _ _ Hb) as [Hr _].
  rewrite Hw in Hb, Hr.
  rewrite to_bytes_big_2 in Hb by exact Hr. injection Hb as <- <-.
  destruct (big_endian_2_bytes top ((t - 1) * 4) ltac:(lia)) as [-> ->].
  destruct (bumped_count_byte t Ht) as [Hlt Hbump].
  pose proof (increment_bump _ (byte_of_Z top) (byte_of_Z ((t - 1) * 4))
                (bn :: bd :: bs :: bc :: data)
                (checksum_of (byte_of_Z top :: byte_of_Z ((t - 1) * 4) ::
                              bn :: bd :: bs :: bc :: data) x00)
                (fromhex_upper_hex _) Hlt) as Hinc.
  cbn [app] in Hinc. cbn [app]. rewrite Hinc, Hbump. clear Hinc.
  unfold _encode_message. rewrite encode_frame_eq, Hw'.
  rewrite to_bytes_big_2 by lia. cbn [bind].
  destruct (big_endian_2_bytes top (t * 4) ltac:(lia)) as [-> ->].
  rewrite <- Hn, <- Hd, <- Hs, <- Hc, !as_byte_of_byte. cbn [bind app].
  reflexivity.
Qed.

Lemma increment_encoded_frame_witness :
  increment_tx_count "09000102FF22320A97" =
    _encode_message (MessageEncode.mk (fun _ _ => 2)) (-1) device_1_2 PIM_ID 0x22 [x32; x0a].
Proof.
  apply (increment_encoded_frame one_transmit (MessageEncode.mk (fun _ _ => 2))
           device_1_2 PIM_ID 0x22 [x32; x0a]).
  - simpl. lia.
  - reflexivity.
  - reflexivity.
Defined.

(* ===================================================================== *)
(** ** The format of the returned strings *)
(* ===================================================================== *)

Section FormatFacts.

Lemma upper_hex_byte_digits (b : byte) :
  is_upper_hex_digit (upper_char (hex_digit (byte_val b / 16))) = true /\
  is_upper_hex_digit (upper_char (hex_digit (byte_val b mod 16))) = true.
Proof. destruct b; split; reflexivity. Qed.

Lemma upper_hex_digits (msg : bytearray) :
  forallb is_upper_hex_digit (list_ascii_of_string (upper (hex msg))) = true.
Proof.
  induction msg as [|b msg IH]; [reflexivity|].
  cbn [hex upper list_ascii_of_string forallb].
  destruct (upper_hex_byte_digits b) as [-> ->]. exact IH.
Qed.

End FormatFacts.

(** X16: the strings the encoder returns are in one format: two digits
    per byte of the frame, each a digit 0-9 or a capital A-F, nothing in
    between.  [increment_tx_count] returns this format for a frame whose
    transmit count is below 3, even when its argument was written in lower
    case or with white space between the bytes; a frame at the maximum comes
    back as it was written. *)
Theorem returned_hex_format :
  (forall (self : MessageEncode.t) (ctl : Z) (addr : Addr.t) (src_id msg_code : Z)
          (data : bytearray) (s : string),
      _encode_message self ctl addr src_id msg_code data = Ok s ->
      String.length s = (2 * (7 + length data))%nat /\
      forallb is_upper_hex_digit (list_ascii_of_string s) = true) /\
  (forall (h : string) (msg : bytearray) (t : Z),
      fromhex h = Ok msg ->
      (3 <= length msg)%nat ->
      tx_count_field h = Ok t ->
      t < 3 ->
      exists s,
        increment_tx_count h = Ok s /\
        String.length s = (2 * length msg)%nat /\
        forallb is_upper_hex_digit (list_ascii_of_string s) = true) /\
  increment_tx_count "09 04 01 02 ff 22 32 0a 93" = Ok "09080102FF22320A8F"%string /\
  increment_tx_count "09 0c 01 02 ff" = Ok "09 0c 01 02 ff"%string.
Proof.
  split; [|split; [|split; reflexivity]].
  - intros self ctl addr src_id msg_code data s E.
    destruct (encode_message_inv _ _ _ _ _ _ _ E)
      as (hi & lo & bn & bd & bs & bc & _ & _ & _ & _ & _ & ->).
    split; [|apply upper_hex_digits].
    rewrite length_upper_hex, length_app. cbn [length]. lia.
  - intros h msg t Hf Hl Hfield Ht.
    destruct (frame_split msg Hl) as (b0 & b1 & mid & last & ->).
    rewrite (tx_count_field_frame h b0 b1 _ Hf) in Hfield. injection Hfield as <-.
    eexists. split; [apply (increment_bump h b0 b1 mid last Hf Ht)|].
    split; [|apply upper_hex_digits].
    rewrite length_upper_hex. cbn [app length]. rewrite !length_app. reflexivity.
Qed.

(* ===================================================================== *)
(** ** lights.py: the index of a light *)
(* ===================================================================== *)

Section IndexFacts.

Lemma string_of_uint_no_underscore (d : Decimal.uint) :
  no_underscore (NilEmpty.string_of_uint d).
Proof.
  unfold no_underscore.
  induction d; cbn [NilEmpty.string_of_uint list_ascii_of_string In];
    [tauto| | | | | | | | | |]; intros [H|H]; try discriminate H; auto.
Qed.

Lemma str_int_no_underscore (n : Z) : no_underscore (str_int n).
Proof.
  unfold str_int, NilEmpty.string_of_int.
  destruct (Z.to_int n) as [d|d]; [apply string_of_uint_no_underscore|].
  unfold no_underscore. cbn [list_ascii_of_string In].
  intros [H|H]; [discriminate H|].
  exact (string_of_uint_no_underscore d H).
Qed.

Lemma str_int_inj (n n' : Z) : str_int n = str_int n' -> n = n'.
Proof.
  unfold str_int. intros E. apply DecimalZ.to_int_inj.
  apply (f_equal NilEmpty.int_of_string) in E.
  rewrite !NilEmpty.isi in E. congruence.
Qed.

(** Two strings free of underscores, each followed by an underscore and
    more, agree up to the underscore and after it. *)
Lemma underscore_split (a a' r r' : string) :
  no_underscore a -> no_underscore a' ->
  (a ++ String "_" r)%string = (a' ++ String "_" r')%string ->
  a = a' /\ r = r'.
Proof.
  revert a'. induction a as [|c a IH]; intros [|c' a'] Ha Ha' E;
    cbn [String.append] in E.
  - injection E as ->. split; reflexivity.
  - injection E as <- _. exfalso. apply Ha'. cbn. left. reflexivity.
  - injection E as -> _. exfalso. apply Ha. cbn. left. reflexivity.
  - injection E as -> E.
    destruct (IH a') as [-> ->]; try assumption.
    + intros H. apply Ha. cbn. right. exact H.
    + intros H. apply Ha'. cbn. right. exact H.
    + split; reflexivity.
Qed.

End IndexFacts.

(** X17: the index string of [UpbAddr] tells lights apart: two addresses
    with integer network id, unit id and channel have the same index only if
    the three numbers are the same. *)
Theorem UpbAddr_index_inj (network_id upb_id channel network_id' upb_id' channel' : Z) :
  UpbAddr_index network_id upb_id channel = UpbAddr_index network_id' upb_id' channel' ->
  network_id = network_id' /\ upb_id = upb_id' /\ channel = channel'.
Proof.
  unfold UpbAddr_index. intros E.
  change ("_" ++ ?x)%string with (String "_" x) in E.
  apply underscore_split in E as [En E]; try apply str_int_no_underscore.
  change ("_" ++ ?x)%string with (String "_" x) in E.
  apply underscore_split in E as [Eu Ec]; try apply str_int_no_underscore.
  repeat split; apply str_int_inj; assumption.
Qed.

Lemma UpbAddr_index_inj_witness :
  UpbAddr_index 1 12 3 = "1_12_3"%string /\ (1 = 1 /\ 12 = 12 /\ 3 = 3).
Proof.
  split; [reflexivity|].
  apply (UpbAddr_index_inj 1 12 3 1 12 3). reflexivity.
Defined.

(* ===================================================================== *)
(** ** lights.py: the handlers *)
(* ===================================================================== *)

Section LightsHandlerFacts.
Context {L : Type}.
Variable elements : gmap string L.

Lemma getitem_nat (data : bytearray) (i : nat) (b : byte) :
  data !! i = Some b -> getitem data (Z.of_nat i) = Ok (byte_val b).
Proof. apply getitem_lookup. Qed.

(** The loop of the state report, [n] rounds from channel [i]: it never
    raises, and stops at the first channel without a light, at the end of
    the data or after [n] rounds. *)
Lemma device_state_report_loop_spec (msg : Message.t) (n i : nat) :
  exists calls,
    Lights._device_state_report_loop elements msg n i = Ok calls /\
    (length calls <= n)%nat /\
    (length calls = 0%nat \/ i + length calls <= length (Message.data msg))%nat /\
    (forall j, (j < length calls)%nat ->
       exists light b,
         elements !! UpbAddr_index (Message.network_id msg) (Message.src_id msg)
                       (Z.of_nat (i + j)) = Some light /\
         Message.data msg !! (i + j)%nat = Some b /\
         calls !! j = Some (light, byte_val b)) /\
    ((length calls < n)%nat ->
     (i + length calls < length (Message.data msg))%nat ->
     elements !! UpbAddr_index (Message.network_id msg) (Message.src_id msg)
                   (Z.of_nat (i + length calls)) = None).
Proof.
  revert i. induction n as [|n IH]; intros i.
  - exists []. cbn. repeat split; lia.
  - cbn [Lights._device_state_report_loop].
    destruct (Nat.leb_spec (length (Message.data msg)) i) as [Hend|Hin].
    { exists []. cbn. repeat split; lia. }
    destruct (elements !! UpbAddr_index (Message.network_id msg)
                (Message.src_id msg) (Z.of_nat i)) as [light|] eqn:Hlight.
    2:{ exists []. cbn [length]. repeat split; try lia.
        intros _ _. rewrite Nat.add_0_r. exact Hlight. }
    destruct (lookup_lt_is_Some_2 (Message.data msg) i Hin) as [b Hb].
    rewrite (getitem_nat _ _ _ Hb). cbn [bind].
    destruct (IH (S i)) as (calls & -> & Hn & Hlen & Hcalls & Hstop).
    cbn [bind]. exists ((light, byte_val b) :: calls). cbn [length].
    split; [reflexivity|]. split; [lia|]. split; [right; lia|]. split.
    + intros [|j] Hj.
      * exists light, b. rewrite Nat.add_0_r. repeat split; assumption.
      * destruct (Hcalls j ltac:(lia)) as (light' & b' & H1 & H2 & H3).
        exists light', b'.
        replace (i + S j)%nat with (S i + j)%nat by lia.
        repeat split; assumption.
    + intros H1 H2. replace (i + S (length calls))%nat with (S i + length calls)%nat by lia.
      apply Hstop; lia.
Qed.

Lemma goto_handler_channel (data : bytearray) :
  (if (2 <? length data)%nat then getitem data 2 else Ok 0) =
    Ok (match data with
        | _ :: _ :: c :: _ => byte_val c
        | _ => 0
        end).
Proof.
  destruct data as [|a [|b [|c rest]]]; try reflexivity.
  cbn [length]. destruct (Nat.ltb_spec 2 (S (S (S (length rest))))); [|lia].
  exact (getitem_lookup (a :: b :: c :: rest) 2 c eq_refl).
Qed.

(** X18: the state-report handler never raises.  It makes one status
    update per channel 0, 1, .. k - 1 of the reporting unit, in this order
    and with the data byte of that position as level, where k is at most 100
    and at most the number of data bytes, every channel below k has a light,
    and, unless k is 100 or the data ended, channel k has none: lights of
    later channels are not updated. *)
Theorem device_state_report_handler_calls (msg : Message.t) :
  exists calls,
    Lights._device_state_report_handler elements msg = Ok calls /\
    (length calls <= 100)%nat /\
    (length calls <= length (Message.data msg))%nat /\
    (forall j, (j < length calls)%nat ->
       exists light b,
         elements !! UpbAddr_index (Message.network_id msg) (Message.src_id msg)
                       (Z.of_nat j) = Some light /\
         Message.data msg !! j = Some b /\
         calls !! j = Some (light, byte_val b)) /\
    ((length calls < 100)%nat ->
     (length calls < length (Message.data msg))%nat ->
     elements !! UpbAddr_index (Message.network_id msg) (Message.src_id msg)
                   (Z.of_nat (length calls)) = None).
Proof.
  destruct (device_state_report_loop_spec msg 100 0)
    as (calls & E & Hn & Hlen & Hcalls & Hstop).
  exists calls. split; [exact E|]. split; [exact Hn|]. split; [lia|].
  split; [exact Hcalls|exact Hstop].
Qed.

(** X19: the goto handler makes no update for a message addressed to a
    link.  For a device message it looks up the light of the destination
    unit under the channel given by the third data byte as it is, or channel
    0 when there are fewer than three data bytes; without such a light it
    does nothing, with one it sets the status to the first data byte, and
    raises [IndexError] when the data is empty. *)
Theorem goto_handler_calls (msg : Message.t) :
  (Message.link msg = true -> Lights._goto_handler elements msg = Ok []) /\
  (Message.link msg = false ->
   forall channel,
     channel = match Message.data msg with
               | _ :: _ :: c :: _ => byte_val c
               | _ => 0
               end ->
     Lights._goto_handler elements msg =
       match elements !! UpbAddr_index (Message.network_id msg)
                           (Message.dest_id msg) channel with
       | None => Ok []
       | Some light =>
           match Message.data msg with
           | [] => Raise IndexError
           | level :: _ => Ok [(light, byte_val level)]
           end
       end).
Proof.
  split.
  - intros Hl. unfold Lights._goto_handler. rewrite Hl. reflexivity.
  - intros Hl channel ->. unfold Lights._goto_handler. rewrite Hl.
    rewrite goto_handler_channel. cbn [bind].
    destruct (elements !! _) as [light|]; [|reflexivity].
    destruct (Message.data msg) as [|level rest]; [reflexivity|].
    rewrite (getitem_lookup (level :: rest) 0 level eq_refl : getitem _ 0 = _).
    reflexivity.
Qed.

End LightsHandlerFacts.

Section GotoRoundTripFacts.

Lemma bytearray_of_inv (vs : list Z) (bs : bytearray) :
  bytearray_of vs = Ok bs -> vs = map byte_val bs.
Proof.
  revert bs. induction vs as [|v vs IH]; intros bs E; cbn [bytearray_of] in E.
  - injection E as <-. reflexivity.
  - destruct (as_byte v) as [b|] eqn:Hb; [|discriminate].
    destruct (bytearray_of vs) as [bs'|]; [|discriminate].
    injection E as <-. cbn [map].
    apply as_byte_inv in Hb as [_ ->]. f_equal. apply IH. reflexivity.
Qed.

End GotoRoundTripFacts.

(** X20: a goto for a device, sent by the encoder and received by the goto
    handler (as the decoder hands it over, the checksum stripped).  The
    handler sets the status of one light of the addressed unit to the level
    that was sent: the light of channel 0 when the address is not
    multi-channel, and the light registered under the channel byte of the
    wire, which is the channel of the address plus one, when it is. *)
Theorem goto_then_goto_handler {L : Type} (elements : gmap string L)
    (table : UpbCommand.table) (self : MessageEncode.t) (addr : Addr.t)
    (level rate : Z) (s : string) :
  Addr.is_link addr = false ->
  1 <= get_tx_count self (Addr.network_id addr) (Addr.upb_id addr) <= 4 ->
  goto table self addr level rate (-1) = Ok s ->
  exists frame chk m,
    fromhex s = Ok (frame ++ [chk]) /\
    decode frame = Ok m /\
    Lights._goto_handler elements m =
      Ok (match elements !! UpbAddr_index (Addr.network_id addr) (Addr.upb_id addr)
                              (if Addr.is_device addr && Addr.multi_channel addr
                               then Addr.channel addr + 1 else 0) with
          | Some light => [(light, level)]
          | None => []
          end).
Proof.
  intros Hlink Ht. unfold goto, _encode_common.
  rewrite encode_common_args_eq.
  destruct (bytearray_of (level_rate_payload addr level rate)) as [args|] eqn:Ea;
    [|discriminate].
  cbn [bind]. intros E.
  destruct (encode_message_inv _ _ _ _ _ _ _ E)
    as (hi & lo & bn & bd & bs & bc & Hb & Hn & Hd & Hs & Hc & ->).
  apply to_bytes_big_2_inv in Hb as [_ Hv].
  apply bytearray_of_inv in Ea.
  assert (Hlen : (length args <= 3)%nat).
  { apply (f_equal (@length Z)) in Ea. rewrite length_map in Ea. rewrite <- Ea.
    unfold level_rate_payload.
    destruct (Addr.is_device addr && Addr.multi_channel addr);
      [|destruct (negb (rate =? -1))]; cbn [length]; lia. }
  destruct (wire_control_auto_fields self addr args Ht ltac:(lia)) as (F15 & _).
  eexists _, _, _. split; [apply fromhex_upper_hex|].
  split; [apply decode_header_bits|].
  unfold Lights._goto_handler.
  cbn [Message.link Message.data Message.network_id Message.dest_id].
  rewrite Hv, F15, Hlink, Hn, Hd.
  destruct (Z.leb_spec 128 (7 + Z.of_nat (length args))) as [|_]; [lia|].
  cbn [orb]. rewrite goto_handler_channel. cbn [bind].
  unfold level_rate_payload in Ea.
  destruct (Addr.is_device addr && Addr.multi_channel addr).
  - destruct args as [|a [|b [|c [|? ?]]]]; try discriminate Ea.
    injection Ea as -> _ <-.
    destruct (elements !! _) as [light|]; [|reflexivity].
    rewrite (getitem_lookup [a; b; c] 0 a eq_refl : getitem _ 0 = _). reflexivity.
  - destruct (negb (rate =? -1)).
    + destruct args as [|a [|b [|? ?]]]; try discriminate Ea.
      injection Ea as -> _.
      destruct (elements !! _) as [light|]; [|reflexivity].
      rewrite (getitem_lookup [a; b] 0 a eq_refl : getitem _ 0 = _). reflexivity.
    + destruct args as [|a [|? ?]]; try discriminate Ea.
      injection Ea as ->.
      destruct (elements !! _) as [light|]; [|reflexivity].
      rewrite (getitem_lookup [a] 0 a eq_refl : getitem _ 0 = _). reflexivity.
Qed.

Lemma goto_then_goto_handler_witness :
  exists frame chk m,
    fromhex "0A000102FF2232FF039E" = Ok (frame ++ [chk]) /\
    decode frame = Ok m /\
    Lights._goto_handler ({[ "1_2_3"%string := 7%nat ]} : gmap string nat) m =
      Ok (match ({[ "1_2_3"%string := 7%nat ]} : gmap string nat)
                  !! UpbAddr_index 1 2 (if true && true then 2 + 1 else 0) with
          | Some light => [(light, 50)]
          | None => []
          end).
Proof.
  apply (goto_then_goto_handler ({[ "1_2_3"%string := 7%nat ]} : gmap string nat)
           (UpbCommand.mk 0x20 0x21 0x22 0x23 0x24 0x25 0x30)
           one_transmit (Addr.mk 1 2 2 true false true) 50 (-1)).
  - reflexivity.
  - simpl. lia.
  - reflexivity.
Defined.

(* ===================================================================== *)
(** ** lights.py: the helper methods of a light *)
(* ===================================================================== *)


(* ===================================================================== *)
(** ** The outcomes of _encode_message *)
(* ===================================================================== *)

Section OutcomeFacts.

Lemma lor_negative_l (a b : Z) : a < 0 -> Z.lor a b < 0.
Proof.
  intros Ha. destruct (Z.lt_ge_cases (Z.lor a b) 0) as [|Hge]; [assumption|].
  apply Z.lor_nonneg in Hge. lia.
Qed.

End OutcomeFacts.

(** X22: the three outcomes of [_encode_message], in the order in which
    the code can fail.  If the control word with the length merged in is not
    in 0..65535 it raises [OverflowError], whatever the identifiers are;
    this is always so for a negative control word other than -1.  Otherwise,
    if the network id, the unit id, the source id or the command code is not
    in 0..255 it raises [ValueError].  Otherwise it returns a string. *)
Theorem encode_message_outcomes
    (self : MessageEncode.t) (ctl : Z) (addr : Addr.t) (src_id msg_code : Z)
    (data : bytearray) :
  (~ 0 <= wire_control self ctl addr data < 65536 ->
   _encode_message self ctl addr src_id msg_code data = Raise OverflowError) /\
  (ctl < -1 ->
   _encode_message self ctl addr src_id msg_code data = Raise OverflowError) /\
  (0 <= wire_control self ctl addr data < 65536 ->
   ~ (0 <= Addr.network_id addr < 256 /\ 0 <= Addr.upb_id addr < 256 /\
      0 <= src_id < 256 /\ 0 <= msg_code < 256) ->
   _encode_message self ctl addr src_id msg_code data = Raise ValueError) /\
  (0 <= wire_control self ctl addr data < 65536 ->
   0 <= Addr.network_id addr < 256 /\ 0 <= Addr.upb_id addr < 256 /\
   0 <= src_id < 256 /\ 0 <= msg_code < 256 ->
   exists s, _encode_message self ctl addr src_id msg_code data = Ok s).
Proof.
  assert (Hover : ~ 0 <= wire_control self ctl addr data < 65536 ->
                  _encode_message self ctl addr src_id msg_code data = Raise OverflowError).
  { intros Hw. unfold _encode_message. rewrite encode_frame_eq.
    rewrite to_bytes_big_2_overflow by exact Hw. reflexivity. }
  split; [exact Hover|]. split; [|split].
  - intros Hneg. apply Hover. unfold wire_control.
    destruct (Z.eqb_spec ctl (-1)) as [|_]; [lia|].
    pose proof (lor_negative_l ctl (Z.shiftl (7 + Z.of_nat (length data)) 8) ltac:(lia)).
    lia.
  - intros Hw Hbad. unfold _encode_message. rewrite encode_frame_eq.
    rewrite to_bytes_big_2 by exact Hw. cbn [bind].
    destruct (as_byte_cases (Addr.network_id addr)) as [[bn En]|En]; rewrite En;
      [|reflexivity].
    destruct (as_byte_cases (Addr.upb_id addr)) as [[bd Ed]|Ed]; rewrite Ed;
      [|reflexivity].
    destruct (as_byte_cases src_id) as [[bs Es]|Es]; rewrite Es; [|reflexivity].
    destruct (as_byte_cases msg_code) as [[bc Ec]|Ec]; rewrite Ec; [|reflexivity].
    exfalso. apply Hbad.
    apply as_byte_inv in En, Ed, Es, Ec. tauto.
  - intros Hw (Hn & Hd & Hs & Hc).
    destruct (encode_message_ok self ctl addr src_id msg_code data)
      as (frame & E & _); try assumption.
    eauto.
Qed.
